(** * AgroFlow backend: credit ledger, payment allocation and reminder sweep

    A shallow embedding of the credit-related code of the AgroFlow backend
    (Mongoose models [Customer], [Sale], [Payment]; the Express routes that
    move money; the daily reminder job) together with the properties the
    design document states about them.

    Conventions of the embedding
    - The customers and the sales collections are finite maps from [_id]
      to document; the payments collection, which the code only appends
      to, is a list.
    - Amounts of money and timestamps are integers ([Z]; timestamps in
      milliseconds).  Where the code divides, in the percentage of the
      credit used, the numbers are the binary64 numbers of JavaScript,
      with their rounding, infinities and NaN.  Where the code reads a
      property that the document does not have, the value is [undefined]
      and the arithmetic on it gives NaN.
    - A handler is a function from the committed database and the request
      to the committed database afterwards and the response.  Inside a
      handler, JavaScript code is a computation in the monad [M]: it may
      throw, and what it wrote before throwing stays written (whether that
      reaches the committed database is decided by the handler's own
      commit / abort, modelled as written in each route). *)

From stdpp Require Import gmap list sorting strings.
From Stdlib Require Import ZArith SpecFloat.

Local Open Scope Z_scope.

(** ** Documents *)

Inductive CustomerStatus := active | inactive | blocked.
Inductive SaleStatus := pending | completed | cancelled.
Inductive PaymentType := cash | credit | online.

(** The strings a request may carry as payment [method].  [other_method]
    stands for any string outside both schema enums. *)
Inductive Method :=
  | m_cash | m_bank_transfer | m_credit_card | m_check | m_razorpay
  | other_method.

Inductive EntryStatus := e_pending | e_completed | e_failed.

Global Instance CustomerStatus_eq_dec : EqDecision CustomerStatus.
Proof. solve_decision. Defined.
Global Instance SaleStatus_eq_dec : EqDecision SaleStatus.
Proof. solve_decision. Defined.
Global Instance PaymentType_eq_dec : EqDecision PaymentType.
Proof. solve_decision. Defined.
Global Instance Method_eq_dec : EqDecision Method.
Proof. solve_decision. Defined.
Global Instance EntryStatus_eq_dec : EqDecision EntryStatus.
Proof. solve_decision. Defined.

(** [paymentHistorySchema] of the Customer model.  [method] is required
    by the schema; an entry pushed without it has [None]. *)
Module HistoryEntry.
Record t := mk {
  amount : Z;
  method : option Method;
  status : EntryStatus;
  saleId : option nat
}.
End HistoryEntry.

(** [customerSchema]: the fields the credit code reads or writes. *)
Module Customer.
Record t := mk {
  creditLimit : Z;
  creditBalance : Z;
  paymentHistory : list HistoryEntry.t;
  status : CustomerStatus
}.

Definition set_creditBalance (b : Z) (c : t) : t :=
  mk (creditLimit c) b (paymentHistory c) (status c).
Definition set_creditLimit (l : Z) (c : t) : t :=
  mk l (creditBalance c) (paymentHistory c) (status c).
Definition push_paymentHistory (e : HistoryEntry.t) (c : t) : t :=
  mk (creditLimit c) (creditBalance c) (paymentHistory c ++ [e]) (status c).

(** [virtual('availableCredit')] *)
Definition availableCredit (c : t) : Z := creditLimit c - creditBalance c.

(** [methods.canMakeCreditPurchase] *)
Definition canMakeCreditPurchase (c : t) (amount : Z) : bool :=
  bool_decide (status c = active) && (creditBalance c + amount <=? creditLimit c).
End Customer.

(** A sale document: the paths of [saleSchema] the credit code reads or
    writes.  [creditDetails_paidAmount = None] is an absent (undefined)
    value. *)
Module Sale.
Record t := mk {
  customer : nat;
  totalAmount : Z;
  paymentType : PaymentType;
  creditDetails_dueDate : option Z;
  creditDetails_paidAmount : option Z;
  status : SaleStatus;
  createdAt : Z
}.

Definition set_status (st : SaleStatus) (s : t) : t :=
  mk (customer s) (totalAmount s) (paymentType s) (creditDetails_dueDate s)
     (creditDetails_paidAmount s) st (createdAt s).

(** [sale.paidAmount], which the payment routes, the notification route and
    the reports read: [saleSchema] has no path of this name (the amount
    paid is [creditDetails.paidAmount]), so that on a sale document the
    property is [undefined], here [None].  The same holds of
    [sale.payments]. *)
Definition paidAmount (s : t) : option Z := None.

(** [x || 0] on a possibly absent number. *)
Definition or0 (x : option Z) : Z := default 0 x.

(** [virtual('remainingBalance')] *)
Definition remainingBalance (s : t) : Z :=
  if bool_decide (paymentType s ≠ credit) then 0
  else totalAmount s - or0 (creditDetails_paidAmount s).
End Sale.

(** [a - b] on numbers of which one may be [undefined] or NaN: the result
    is then NaN, here [None]. *)
Definition js_minus (a b : option Z) : option Z :=
  match a, b with
  | Some x, Some y => Some (x - y)
  | _, _ => None
  end.

(** [Math.min(a, b)]; NaN when an argument is NaN *)
Definition js_min (a b : option Z) : option Z :=
  match a, b with
  | Some x, Some y => Some (Z.min x y)
  | _, _ => None
  end.

(** [paymentSchema].  [sale] and [customer] are required by the schema; a
    payment built from a request without them has [None]. *)
Module Payment.
Record t := mk {
  sale : option nat;
  customer : option nat;
  amount : Z;
  date : Z;
  method : Method;
  status : EntryStatus
}.
End Payment.

(** The database: three collections.  A new [Payment] gets the next free
    [_id], its position in the collection. *)
Record DB := mkDB {
  customers : gmap nat Customer.t;
  sales : gmap nat Sale.t;
  payments : list Payment.t
}.

(** ** Errors and responses *)

(** The errors the modelled code throws, named after their messages. *)
Inductive Err :=
  | MissingRequiredPaymentFields    (* 'Missing required payment fields' *)
  | InvalidPaymentDataFormat        (* 'Invalid payment data format' *)
  | NoPendingSales                  (* 'No pending sales found for customer: ...' *)
  | CustomerNotFound                (* 'Customer not found' *)
  | SaleNotFound                    (* 'Sale not found' *)
  | AmountNotPositive               (* 'Payment amount must be greater than 0' *)
  | ExceedsCreditBalance            (* 'Payment amount exceeds credit balance' *)
  | BalanceCannotBeNegative         (* 'Credit balance cannot be negative' *)
  | ExceedsRemainingBalance         (* 'Payment amount exceeds remaining balance' *)
  | AlreadyInThisStatus             (* 'Sale is already in this status' *)
  | MissingRequiredFields           (* 'Missing required fields' *)
  | CreditLimitExceeded             (* 'Credit limit exceeded' *)
  | BalanceExceedsLimit             (* 'Credit balance cannot exceed credit limit' *)
  | ValidationError                 (* a Mongoose schema validator rejected the document *)
  | ReferenceError_mongoose         (* 'mongoose is not defined' *)
  | ReferenceError_sale             (* 'sale is not defined' *)
  | TypeError_null                  (* reading a property of null *)
  | TypeError_undefined             (* reading a property of undefined *)
  | InvalidSignature.               (* 'Invalid payment signature' *)

Global Instance Err_eq_dec : EqDecision Err.
Proof. solve_decision. Defined.

(** The errors that report a payment larger than what is owed. *)
Definition is_overpayment_error (e : Err) : bool :=
  match e with
  | ExceedsCreditBalance | ExceedsRemainingBalance => true
  | _ => false
  end.

(** ** The monad of handler code: state that survives a throw *)

Inductive Outcome (A : Type) :=
  | Ok (a : A)
  | Throw (e : Err).
Arguments Ok {A} a.
Arguments Throw {A} e.

Definition M (A : Type) : Type := DB → Outcome A * DB.

Global Instance M_ret : MRet M := λ A a db, (Ok a, db).
Global Instance M_bind : MBind M := λ A B f m db,
  match m db with
  | (Ok a, db') => f a db'
  | (Throw e, db') => (Throw e, db')
  end.

Definition throw {A} (e : Err) : M A := λ db, (Throw e, db).
Definition get_db : M DB := λ db, (Ok db, db).
Definition put_db (db' : DB) : M unit := λ _, (Ok tt, db').

(** [try { body } catch (error) { handler(error) }] *)
Definition try_catch {A} (body : M A) (handler : Err → M A) : M A := λ db,
  match body db with
  | (Ok a, db') => (Ok a, db')
  | (Throw e, db') => handler e db'
  end.

(** [if (!x) throw e] on a possibly absent value. *)
Definition require {A} (x : option A) (e : Err) : M A :=
  match x with Some a => mret a | None => throw e end.

(** ** Mongoose persistence

    [doc.save()] runs the schema validators, then the [pre('save')] hooks,
    then writes the document.  Only the validators of the modelled fields
    are represented. *)

(** enum of [paymentHistorySchema.method] *)
Definition history_method_ok (m : option Method) : bool :=
  match m with
  | Some m_cash | Some m_bank_transfer | Some m_check => true
  | _ => false
  end.

(** enum of [paymentSchema.method] *)
Definition payment_method_ok (m : Method) : bool :=
  match m with
  | other_method => false
  | _ => true
  end.

Definition validate_entry (e : HistoryEntry.t) : bool :=
  (0 <=? HistoryEntry.amount e) && history_method_ok (HistoryEntry.method e).

(** [min: 0] on [creditLimit] and [creditBalance]; the sub-documents of
    [paymentHistory]. *)
Definition validate_customer (c : Customer.t) : bool :=
  (0 <=? Customer.creditLimit c) && (0 <=? Customer.creditBalance c)
  && forallb validate_entry (Customer.paymentHistory c).

(** [min: 0] on [totalAmount] and on [creditDetails.paidAmount]. *)
Definition validate_sale (s : Sale.t) : bool :=
  (0 <=? Sale.totalAmount s) && (0 <=? Sale.or0 (Sale.creditDetails_paidAmount s)).

(** [sale] and [customer] required, [min: 0] on [amount], enum on
    [method]. *)
Definition validate_payment (p : Payment.t) : bool :=
  bool_decide (is_Some (Payment.sale p)) && bool_decide (is_Some (Payment.customer p))
  && (0 <=? Payment.amount p)
  && payment_method_ok (Payment.method p).

Definition findCustomer (id : nat) : M (option Customer.t) :=
  λ db, (Ok (customers db !! id), db).

Definition findSale (id : nat) : M (option Sale.t) :=
  λ db, (Ok (sales db !! id), db).

(** [customerSchema.pre('save')]: the hook that rejects a balance above
    the limit. *)
Definition customer_pre_save (c : Customer.t) : M unit :=
  if Customer.creditLimit c <? Customer.creditBalance c
  then throw BalanceExceedsLimit
  else mret tt.

(** [customer.save()] *)
Definition saveCustomer (id : nat) (c : Customer.t) : M unit :=
  if validate_customer c then
    customer_pre_save c;;
    db ← get_db;
    put_db (mkDB (<[id := c]> (customers db)) (sales db) (payments db))
  else throw ValidationError.

(** [sale.save()] *)
Definition saveSale (id : nat) (s : Sale.t) : M unit :=
  if validate_sale s then
    db ← get_db;
    put_db (mkDB (customers db) (<[id := s]> (sales db)) (payments db))
  else throw ValidationError.

(** [payment.save()] of a new payment; returns its [_id]. *)
Definition savePayment (p : Payment.t) : M nat :=
  if validate_payment p then
    db ← get_db;
    put_db (mkDB (customers db) (sales db) (payments db ++ [p]));;
    mret (length (payments db))
  else throw ValidationError.

(** [new Payment({ ..., amount, ... }).save()] for an amount that may be
    NaN: NaN is not cast to a Number, and the validation of [save()]
    rejects the document. *)
Definition savePaymentOf (sale customer : option nat) (amount : option Z) (date : Z)
    (method : Method) : M nat :=
  match amount with
  | Some a => savePayment (Payment.mk sale customer a date method e_completed)
  | None => throw ValidationError
  end.

(** [Customer.findByIdAndUpdate(id, { $inc: { creditBalance: d } })]: an
    update operator sent to the database as it is; neither validators nor
    save hooks run. *)
Definition incCreditBalance (id : nat) (d : Z) : M unit :=
  db ← get_db;
  match customers db !! id with
  | Some c =>
      put_db (mkDB (<[id := Customer.set_creditBalance (Customer.creditBalance c + d) c]>
                      (customers db))
                   (sales db) (payments db))
  | None => mret tt
  end.

(** *** Methods of the models *)

(** [customerSchema.methods.processCreditPayment] *)
Definition processCreditPayment (id : nat) (c : Customer.t) (amount : Z)
    (method : option Method) (saleId : option nat) : M Customer.t :=
  if amount <=? 0 then throw AmountNotPositive
  else if Customer.creditBalance c <? amount then throw ExceedsCreditBalance
  else
    let c1 := Customer.set_creditBalance (Customer.creditBalance c - amount) c in
    let c2 := Customer.push_paymentHistory
                (HistoryEntry.mk amount method e_completed saleId) c1 in
    saveCustomer id c2;;
    mret c2.

(** [customerSchema.methods.updateCreditBalance]; [add = false] is any
    operation other than ['add']. *)
Definition updateCreditBalance (id : nat) (c : Customer.t) (amount : Z)
    (add : bool) : M Customer.t :=
  let newBalance :=
    if add then Customer.creditBalance c + amount
    else Customer.creditBalance c - amount in
  if newBalance <? 0 then throw BalanceCannotBeNegative
  else if add && (Customer.creditLimit c <? newBalance) then throw CreditLimitExceeded
  else
    let c1 := Customer.set_creditBalance newBalance c in
    saveCustomer id c1;;
    mret c1.

(** ** Route handlers *)

Inductive Response (A : Type) :=
  | Success (a : A)
  | Failure (code : Z) (e : Err).
Arguments Success {A} a.
Arguments Failure {A} code e.

(** A handler that opens a session, runs [body] with every read and write
    in that session, and ends with
    [try { ...; commitTransaction() } catch { abortTransaction() }]. *)
Definition in_transaction {A} (code : Z) (body : M A) : DB → DB * Response A :=
  λ db,
    match body db with
    | (Ok a, db') => (db', Success a)
    | (Throw e, _) => (db, Failure code e)
    end.

(** A handler without session: every [save()] is committed at once, and
    the [catch] block only builds the response. *)
Definition no_transaction {A} (code : Z) (body : M A) : DB → DB * Response A :=
  λ db,
    match body db with
    | (Ok a, db') => (db', Success a)
    | (Throw e, db') => (db', Failure code e)
    end.

(** What becomes of a request: the response of the handler, or none when
    an error leaves the handler because it is thrown outside its [try]. *)
Inductive Answer (A : Type) :=
  | Responded (r : Response A)
  | Uncaught (e : Err).
Arguments Responded {A} r.
Arguments Uncaught {A} e.

(** Truthiness of a number that may be absent: [undefined] and [0] are
    falsy. *)
Definition truthy (a : option Z) : option Z :=
  match a with
  | Some z => if z =? 0 then None else Some z
  | None => None
  end.

(** The filter [{ customer, status: 'pending', paymentType: 'credit' }] *)
Definition is_pending_credit_of (customerId : nat) (s : Sale.t) : bool :=
  bool_decide (Sale.customer s = customerId)
  && bool_decide (Sale.status s = pending)
  && bool_decide (Sale.paymentType s = credit).

(** *** [POST /payments/bulk] *)

(** An element of the request array; [date] is the instant that the date
    string of the request stands for. *)
Module PaymentData.
Record t := mk {
  customerId : option nat;
  amount : option Z;
  date : option Z;
  method : option Method
}.
End PaymentData.

Module BulkSuccess.
Record t := mk {
  customerId : nat;
  amount : Z;
  salesUpdated : list nat
}.
End BulkSuccess.

Module BulkResults.
Record t := mk {
  successful : list BulkSuccess.t;
  failed : list (option nat * Err)
}.
End BulkResults.

(** A handler whose first statements, [before], stand outside its [try]:
    what they throw is not caught by the handler. *)
Definition outside_try {A} (before : M unit) (handler : DB → DB * Response A)
    : DB → DB * Answer A :=
  λ db,
    match before db with
    | (Ok _, _) => let '(db', response) := handler db in (db', Responded response)
    | (Throw e, _) => (db, Uncaught e)
    end.

(** [const session = await mongoose.startSession()] in the module of the
    payment routes, which imports [express], [authenticate], [Customer],
    [Sale], [Payment] and [NotificationService], and not [mongoose]. *)
Definition mongoose_startSession : M unit := throw ReferenceError_mongoose.

Section BulkPayments.

(** [.sort({ createdAt: 1 })]: the documents in ascending order of
    [createdAt].  In which order documents of the same date come is the
    choice of the database; the function is a parameter. *)
Variable sortByCreatedAt : list (nat * Sale.t) → list (nat * Sale.t).

(** [Sale.find({ customer, status: 'pending', paymentType: 'credit' })
      .sort({ createdAt: 1 })] *)
Definition findPendingSales (customerId : nat) (db : DB) : list (nat * Sale.t) :=
  sortByCreatedAt
    (filter (λ p, is_pending_credit_of customerId p.2 = true) (map_to_list (sales db))).

(** The loop [for (const sale of pendingSales)], which returns
    [updatedSales].  Its first round either leaves the loop
    ([remainingAmount <= 0]) or throws: [saleBalance] is
    [sale.totalAmount - sale.paidAmount], so [paymentForSale] is NaN and
    [payment.save()] rejects it; the statement after it,
    [sale.payments.push(payment._id)], throws as well.  The rest of the
    round and every later round are not reached. *)
Definition allocate (customerId : nat) (date : Z) (method : Method)
    (pendingSales : list (nat * Sale.t)) (remainingAmount : Z) : M (list nat) :=
  match pendingSales with
  | [] => mret []
  | (saleId, sale) :: _ =>
      if remainingAmount <=? 0 then mret []
      else
        let saleBalance := js_minus (Some (Sale.totalAmount sale)) (Sale.paidAmount sale) in
        let paymentForSale := js_min (Some remainingAmount) saleBalance in
        savePaymentOf (Some saleId) (Some customerId) paymentForSale date method;;
        throw TypeError_undefined
  end.

(** The body of the inner [try] for one element of the request array.
    ([sendPaymentConfirmation], called before the result is pushed, logs
    the name of the customer found.) *)
Definition processOne (paymentData : PaymentData.t) : M BulkSuccess.t :=
  customerId ← require (PaymentData.customerId paymentData) MissingRequiredPaymentFields;
  amount ← require (truthy (PaymentData.amount paymentData)) MissingRequiredPaymentFields;
  date ← require (PaymentData.date paymentData) MissingRequiredPaymentFields;
  method ← require (PaymentData.method paymentData) MissingRequiredPaymentFields;
  found ← findCustomer customerId;
  customer ← require found CustomerNotFound;
  db ← get_db;
  let pendingSales := findPendingSales customerId db in
  if bool_decide (pendingSales = []) then throw NoPendingSales
  else
    updatedSales ← allocate customerId date method pendingSales amount;
    saveCustomer customerId
      (Customer.set_creditBalance (Customer.creditBalance customer - amount) customer);;
    mret (BulkSuccess.mk customerId amount updatedSales).

(** The loop [for (const paymentData of payments)] with its inner
    [try / catch]: a failed element is recorded and the loop goes on. *)
Fixpoint bulkLoop (payments : list PaymentData.t) (results : BulkResults.t)
    : M BulkResults.t :=
  match payments with
  | [] => mret results
  | paymentData :: rest =>
      results' ←
        try_catch
          (ok ← processOne paymentData;
           mret (BulkResults.mk (BulkResults.successful results ++ [ok])
                                (BulkResults.failed results)))
          (λ error,
           mret (BulkResults.mk (BulkResults.successful results)
                   (BulkResults.failed results
                      ++ [(PaymentData.customerId paymentData, error)])));
      bulkLoop rest results'
  end.

(** The [try] block of the handler with its [catch]: what the handler
    would do in a session.  [body = None] is a request body that is not an
    array. *)
Definition bulkSession (body : option (list PaymentData.t))
    : DB → DB * Response BulkResults.t :=
  in_transaction 500
    (payments ← require body InvalidPaymentDataFormat;
     bulkLoop payments (BulkResults.mk [] [])).

(** [router.post('/bulk')] of the payment routes.  The session is asked
    for before the [try]: the ReferenceError of that statement leaves the
    handler on every request, no response is sent, and [bulkSession] is
    never run. *)
Definition postBulk (body : option (list PaymentData.t))
    : DB → DB * Answer BulkResults.t :=
  outside_try mongoose_startSession (bulkSession body).

End BulkPayments.

(** *** [POST /customers/:id/payments] *)

Module CustomerPaymentBody.
Record t := mk {
  amount : Z;
  method : option Method;
  saleId : option nat
}.
End CustomerPaymentBody.

(** [customer.paymentHistory.filter(p => p.saleId?.toString() === saleId &&
    p.status === 'completed').reduce((sum, p) => sum + p.amount, 0)] *)
Definition completedTotalFor (saleId : nat) (history : list HistoryEntry.t) : Z :=
  foldl (λ sum p, sum + HistoryEntry.amount p) 0
    (filter (λ p, HistoryEntry.saleId p = Some saleId ∧ HistoryEntry.status p = e_completed)
            history).

Definition postCustomerPayment (id : nat) (body : CustomerPaymentBody.t)
    : DB → DB * Response Customer.t :=
  let amount := CustomerPaymentBody.amount body in
  in_transaction 400
    (found ← findCustomer id;
     customer ← require found CustomerNotFound;
     if amount <=? 0 then throw AmountNotPositive
     else if Customer.creditBalance customer <? amount then throw ExceedsCreditBalance
     else
       let customer1 :=
         Customer.set_creditBalance (Customer.creditBalance customer - amount) customer in
       let customer2 :=
         Customer.push_paymentHistory
           (HistoryEntry.mk amount (CustomerPaymentBody.method body) e_completed
                            (CustomerPaymentBody.saleId body))
           customer1 in
       match CustomerPaymentBody.saleId body with
       | Some saleId =>
           foundSale ← findSale saleId;
           match foundSale with
           | Some sale =>
               let totalPaid :=
                 completedTotalFor saleId (Customer.paymentHistory customer2) + amount in
               if Sale.totalAmount sale <=? totalPaid
               then saveSale saleId (Sale.set_status completed sale)
               else mret tt
           | None => mret tt
           end
       | None => mret tt
       end;;
       saveCustomer id customer2;;
       mret customer2).

(** *** [PATCH /sales/:id/status] *)

Definition patchStatus (id : nat) (status : SaleStatus) : DB → DB * Response Sale.t :=
  in_transaction 400
    (found ← findSale id;
     sale ← require found SaleNotFound;
     if bool_decide (Sale.status sale = status) then throw AlreadyInThisStatus
     else
       (if bool_decide (status = completed) && bool_decide (Sale.paymentType sale = credit)
        then
          (* [.populate('customer')] leaves null for a customer that is gone,
             and [sale.customer._id] then throws *)
          populated ← findCustomer (Sale.customer sale);
          require populated TypeError_null;;
          incCreditBalance (Sale.customer sale) (- Sale.totalAmount sale)
        else mret tt);;
       let sale' := Sale.set_status status sale in
       saveSale id sale';;
       mret sale').

(** *** [POST /razorpay/verify-payment] *)

Module VerifyBody.
Record t := mk {
  (** the result of [RazorpayService.verifyPayment] on the three
      [razorpay_*] fields *)
  isValid : bool;
  saleId : option nat;
  customerId : option nat;
  amount : Z
}.
End VerifyBody.

(** [router.post('/verify-payment')] of the Razorpay routes.  No session
    is opened: every [save()] is committed at once. *)
Definition postVerifyPayment (now : Z) (body : VerifyBody.t) : DB → DB * Response nat :=
  let amount := VerifyBody.amount body in
  if negb (VerifyBody.isValid body) then λ db, (db, Failure 400 InvalidSignature)
  else
    no_transaction 500
      (pid ← savePayment
               (Payment.mk (VerifyBody.saleId body) (VerifyBody.customerId body) amount now
                           m_razorpay e_completed);
       match VerifyBody.saleId body with
       | Some saleId =>
           foundSale ← findSale saleId;
           match foundSale with
           | Some sale =>
               (* [sale.payments.push(payment._id)]: [sale.payments] is
                  undefined; what follows in the block (the sum on
                  [sale.paidAmount], the status, [sale.save()]) is not
                  reached *)
               throw TypeError_undefined
           | None => mret tt
           end
       | None => mret tt
       end;;
       match VerifyBody.customerId body with
       | Some customerId =>
           found ← findCustomer customerId;
           match found with
           | Some customer =>
               saveCustomer customerId
                 (Customer.set_creditBalance
                    (Z.max 0 (Customer.creditBalance customer - amount)) customer);;
               (* [sendPaymentConfirmation(customer, payment, sale)]: [sale] is
                  declared in the block of [if (saleId)] only *)
               throw ReferenceError_sale
           | None => mret tt
           end
       | None => mret tt
       end;;
       mret pid).

(** *** [POST /sales]: the validation that precedes the booking *)

Module SaleBody.
Record t := mk {
  customerId : option nat;
  (** [items] is only tested for presence here *)
  hasItems : bool;
  paymentType : option PaymentType;
  totalAmount : option Z
}.
End SaleBody.

Section PostSale.
(** What follows the credit check in the [try] block (stock update,
    [Sale.create], the customer update) and the stock rollback of the
    [catch] block act on products; they are parameters here. *)
Variable A : Type.
Variable booking : SaleBody.t → M A.
Variable rollbackStock : SaleBody.t → M unit.

Definition postSale (body : SaleBody.t) : DB → DB * Response A :=
  no_transaction 400
    (try_catch
       (customerId ← require (SaleBody.customerId body) MissingRequiredFields;
        (if SaleBody.hasItems body then mret tt else throw MissingRequiredFields);;
        paymentType ← require (SaleBody.paymentType body) MissingRequiredFields;
        totalAmount ← require (truthy (SaleBody.totalAmount body)) MissingRequiredFields;
        (if bool_decide (paymentType = credit) then
           found ← findCustomer customerId;
           customer ← require found CustomerNotFound;
           if Customer.canMakeCreditPurchase customer totalAmount then mret tt
           else throw CreditLimitExceeded
         else mret tt);;
        booking body)
       (λ error,
        (if bool_decide (error ≠ CustomerNotFound) && bool_decide (error ≠ CreditLimitExceeded)
         then try_catch (rollbackStock body) (λ _, mret tt)
         else mret tt);;
        throw error)).
End PostSale.

(** ** The daily reminder job *)

Definition REMINDER_INTERVALS_FIRST : Z := 7.
Definition REMINDER_INTERVALS_SECOND : Z := 3.
Definition REMINDER_INTERVALS_THIRD : Z := 1.

Definition OVERDUE_INTERVALS_FIRST : Z := 1.
Definition OVERDUE_INTERVALS_SECOND : Z := 7.
Definition OVERDUE_INTERVALS_THIRD : Z := 30.


Definition MS_PER_DAY : Z := 86400000.

(** [differenceInDays] of date-fns: the number of full days from
    [dateRight] to [dateLeft], truncated toward zero (days of 24 hours, as
    in a time zone without clock changes). *)
Definition differenceInDays (dateLeft dateRight : Z) : Z :=
  Z.quot (dateLeft - dateRight) MS_PER_DAY.

(** *** The numbers of the percentage computation

    [percentageUsed] is the one value of the credit code that comes out of
    a division.  It is computed as in JavaScript, in binary64 (precision
    53, largest exponent 1024), rounding to nearest with ties to even. *)
Definition JSNumber : Type := spec_float.

(** An integer as a JavaScript number (exact up to 2^53). *)
Definition of_Z (z : Z) : JSNumber := binary_normalize 53 1024 z 0 false.

(** [x / y] *)
Definition js_divide (x y : JSNumber) : JSNumber := SFdiv 53 1024 x y.

(** [x * y] *)
Definition js_times (x y : JSNumber) : JSNumber := SFmul 53 1024 x y.

(** [x >= threshold]; false when [x] is NaN *)
Definition js_ge (x : JSNumber) (threshold : Z) : bool := SFleb (of_Z threshold) x.

(** [Math.round(x)]: the integer nearest to [x], the larger one of two
    that are equally near; an integer, an infinity and NaN are returned as
    they are, and a result of zero keeps the sign of [x]. *)
Definition Math_round (x : JSNumber) : JSNumber :=
  match x with
  | S754_finite s m e =>
      if 0 <=? e then x
      else
        let n := if s then Z.neg m else Z.pos m in
        let r := (2 * n + 2 ^ (- e)) `div` 2 ^ (1 - e) in
        if r =? 0 then S754_zero s else of_Z r
  | _ => x
  end.

(** The notifications sent: the calls on [NotificationService] that
    return.  [sendPaymentReminder] and [sendOverdueNotification] log
    [customer.name] and so throw a TypeError when they are handed the null
    that [populate('customer')] leaves for a customer that is gone;
    [sendCreditLimitWarning] is handed the customer document itself. *)
Inductive Notification :=
  | PaymentReminder (customer sale : nat) (daysUntilDue : Z)
  | OverdueNotification (customer sale : nat) (daysOverdue : Z)
  | CreditLimitWarning (customer : nat) (remainingCredit : Z) (percentage : JSNumber).

(** The test of [processUpcomingPayments] on [daysUntilDue] *)
Definition isReminderDay (daysUntilDue : Z) : bool :=
  (daysUntilDue =? REMINDER_INTERVALS_FIRST)
  || (daysUntilDue =? REMINDER_INTERVALS_SECOND)
  || (daysUntilDue =? REMINDER_INTERVALS_THIRD).

(** The test of [processOverduePayments] on [daysOverdue] *)
Definition isOverdueDay (daysOverdue : Z) : bool :=
  (daysOverdue =? OVERDUE_INTERVALS_FIRST)
  || (daysOverdue =? OVERDUE_INTERVALS_SECOND)
  || (daysOverdue =? OVERDUE_INTERVALS_THIRD).

Definition is_pending_credit (s : Sale.t) : bool :=
  bool_decide (Sale.status s = pending) && bool_decide (Sale.paymentType s = credit).

(** The loop of [processUpcomingPayments].  The error a sender throws is
    not caught in the loop: it ends the loop and the function (the
    rejection is logged by [processReminders]), and the sales that come
    later in the query result are not looked at. *)
Fixpoint upcomingLoop (now : Z) (db : DB) (pendingSales : list (nat * Sale.t))
    : list Notification :=
  match pendingSales with
  | [] => []
  | (saleId, sale) :: rest =>
      match Sale.creditDetails_dueDate sale with
      | None => upcomingLoop now db rest
      | Some dueDate =>
          let daysUntilDue := differenceInDays dueDate now in
          if isReminderDay daysUntilDue
          then
            match customers db !! Sale.customer sale with
            | Some _ =>
                PaymentReminder (Sale.customer sale) saleId daysUntilDue
                  :: upcomingLoop now db rest
            | None => []
            end
          else upcomingLoop now db rest
      end
  end.

(** The result of the query of [processUpcomingPayments],
    [{ 'creditDetails.dueDate': { $exists: true }, status: 'pending',
       paymentType: 'credit' }], in the order of the collection. *)
Definition upcomingQuery (db : DB) : list (nat * Sale.t) :=
  filter (λ p, is_pending_credit p.2 = true ∧ is_Some (Sale.creditDetails_dueDate p.2))
         (map_to_list (sales db)).

(** [processUpcomingPayments], the sweep being taken at the one instant
    [now]: the reminders it sends. *)
Definition processUpcomingPayments (now : Z) (db : DB) : list Notification :=
  upcomingLoop now db (upcomingQuery db).

(** The loop of [processOverduePayments]; it ends like the other one. *)
Fixpoint overdueLoop (now : Z) (db : DB) (overdueSales : list (nat * Sale.t))
    : list Notification :=
  match overdueSales with
  | [] => []
  | (saleId, sale) :: rest =>
      match Sale.creditDetails_dueDate sale with
      | None => overdueLoop now db rest
      | Some dueDate =>
          let daysOverdue := differenceInDays now dueDate in
          if isOverdueDay daysOverdue
          then
            match customers db !! Sale.customer sale with
            | Some _ =>
                OverdueNotification (Sale.customer sale) saleId daysOverdue
                  :: overdueLoop now db rest
            | None => []
            end
          else overdueLoop now db rest
      end
  end.

(** [$lt] of the overdue query on a date that may be absent *)
Definition dueBefore (now : Z) (s : Sale.t) : Prop :=
  match Sale.creditDetails_dueDate s with
  | Some dueDate => dueDate < now
  | None => False
  end.

Global Instance dueBefore_dec now s : Decision (dueBefore now s).
Proof. unfold dueBefore. destruct (Sale.creditDetails_dueDate s); apply _. Defined.

(** The result of the query of [processOverduePayments],
    [{ 'creditDetails.dueDate': { $lt: new Date() }, status: 'pending',
       paymentType: 'credit' }], in the order of the collection. *)
Definition overdueQuery (now : Z) (db : DB) : list (nat * Sale.t) :=
  filter (λ p, is_pending_credit p.2 = true ∧ dueBefore now p.2) (map_to_list (sales db)).

(** [processOverduePayments]: the overdue notices it sends. *)
Definition processOverduePayments (now : Z) (db : DB) : list Notification :=
  overdueLoop now db (overdueQuery now db).

(** [(customer.creditBalance / customer.creditLimit) * 100] *)
Definition percentageUsed (customer : Customer.t) : JSNumber :=
  js_times (js_divide (of_Z (Customer.creditBalance customer))
                      (of_Z (Customer.creditLimit customer)))
           (of_Z 100).




(** ** The design document's formulations, for comparison with the code *)

(** The oldest-first waterfall of the design document (algorithm step 3):
    walk the remaining balances in order, apply
    [min(remainingAmount, remainingBalance)] to each, stop when
    [remainingAmount] reaches zero or the list is exhausted. *)
Fixpoint waterfall (remainingAmount : Z) (remainingBalances : list Z) : list Z :=
  match remainingBalances with
  | [] => []
  | remainingBalance :: rest =>
      if remainingAmount <=? 0 then []
      else
        let applied := Z.min remainingAmount remainingBalance in
        applied :: waterfall (remainingAmount - applied) rest
  end.



(** The sale a reminder or an overdue notice is about, and the customer a
    credit-limit warning is about. *)
Definition notifiedSale (n : Notification) : option nat :=
  match n with
  | PaymentReminder _ sale _ | OverdueNotification _ sale _ => Some sale
  | CreditLimitWarning _ _ _ => None
  end.


(** The sender of the reminder of a sale throws: the sale is on a
    reminder day and its customer is gone. *)
Definition reminderFails (now : Z) (db : DB) (p : nat * Sale.t) : bool :=
  match Sale.creditDetails_dueDate p.2 with
  | Some dueDate =>
      isReminderDay (differenceInDays dueDate now)
      && bool_decide (customers db !! Sale.customer p.2 = None)
  | None => false
  end.

(** Likewise for the overdue notice of a sale. *)
Definition noticeFails (now : Z) (db : DB) (p : nat * Sale.t) : bool :=
  match Sale.creditDetails_dueDate p.2 with
  | Some dueDate =>
      isOverdueDay (differenceInDays now dueDate)
      && bool_decide (customers db !! Sale.customer p.2 = None)
  | None => false
  end.

(** The sweep evaluates a sale of the list it walks: the loop gets to the
    sale and past it, no sender having thrown on the way. *)
Definition evaluated (fails : nat * Sale.t → bool) (walked : list (nat * Sale.t))
    (sale : nat * Sale.t) : Prop :=
  ∃ before after,
    walked = before ++ sale :: after
    ∧ Forall (λ p, fails p = false) (before ++ [sale]).

(** ** Sample data *)

Module Sample.

Definition customer (creditBalance : Z) : Customer.t :=
  Customer.mk 1000 creditBalance [] active.

(** A pending credit sale of customer 1. *)
Definition sale (totalAmount paid createdAt : Z) : Sale.t :=
  Sale.mk 1%nat totalAmount credit None (Some paid) pending createdAt.

(** Customer 1 with the given balance and one pending credit sale, [_id]
    7, of 100 with [paid] already paid. *)
Definition ledger (creditBalance paid : Z) : DB :=
  mkDB {[ 1%nat := customer creditBalance ]} {[ 7%nat := sale 100 paid 10 ]} [].

(** Customer 1 with two pending credit sales: 200 (older, [_id] 8) and 500
    (newer, [_id] 7). *)
Definition two_sales : DB :=
  mkDB {[ 1%nat := customer 700 ]}
       {[ 7%nat := sale 500 0 20; 8%nat := sale 200 0 10 ]} [].

Definition bulkPayment (amount : Z) : PaymentData.t :=
  PaymentData.mk (Some 1%nat) (Some amount) (Some 0) (Some m_cash).

(** A blocked customer with unused credit. *)
Definition blockedCustomer : Customer.t := Customer.mk 1000 0 [] blocked.

Definition creditSaleBody (totalAmount : Z) : SaleBody.t :=
  SaleBody.mk (Some 1%nat) true (Some credit) (Some totalAmount).

Definition verifyBody (amount : Z) : VerifyBody.t :=
  VerifyBody.mk true (Some 7%nat) (Some 1%nat) amount.

End Sample.

(** ** Further code of the models and routes *)

(** [saleSchema.methods.isOverdue]; the result is read as a truth value
    ([undefined] for a sale without due date is falsy). *)
Definition isOverdue (now : Z) (s : Sale.t) : bool :=
  if bool_decide (Sale.paymentType s ≠ credit) || bool_decide (Sale.status s = completed)
  then false
  else
    match Sale.creditDetails_dueDate s with
    | Some dueDate => dueDate <? now
    | None => false
    end.

(** *** [PUT /customers/:id] and [POST /customers]

    The customers' codes, which no credit code reads, are kept beside the
    database, as stored.  Of the other fields these two routes copy from
    the request, [name] and [email] have validators and are part of the
    request below; [phone], [address] and [notes] have none and are left
    out, and [createdBy] is the user the [authenticate] middleware has
    set. *)
Record Registry := mkRegistry {
  codes : gmap nat string;
  ledger : DB
}.

Inductive CustomerRouteError :=
  | NotFound404                 (* 404 'Customer not found' *)
  | LimitBelowBalance           (* 400 'New credit limit cannot be less than current credit balance' *)
  | CodeAlreadyExists           (* 400 'Customer code already exists' *)
  | SaveRejected (e : Err).     (* 400 with the message of the error [save()] threw *)

Module CustomerBody.
Record t := mk {
  name : option string;
  code : option string;
  (** whether the [match] validator of the path [email] accepts the email
      of the request; it accepts a request without email *)
  emailAccepted : bool;
  creditLimit : option Z
}.
End CustomerBody.

(** [Customer.findOne({ code, _id: { $ne: id } })], as a truth value *)
Definition codeUsedByOther (code : option string) (id : nat) (codes : gmap nat string) : bool :=
  existsb (λ p, bool_decide (p.1 ≠ id ∧ Some p.2 = code)) (map_to_list codes).

(** [Customer.findOne({ code })], as a truth value *)
Definition codeUsed (code : option string) (codes : gmap nat string) : bool :=
  existsb (λ p, bool_decide (Some p.2 = code)) (map_to_list codes).

(** [creditLimit < customer.creditBalance] on a limit that may be
    [undefined] (the comparison is then false). *)
Definition limitBelow (creditLimit : option Z) (creditBalance : Z) : bool :=
  match creditLimit with
  | Some l => l <? creditBalance
  | None => false
  end.

Section CustomerRoutes.

(** [String.prototype.trim], the setter of the paths with [trim: true];
    it is applied to what is assigned and to the value of a query. *)
Variable trim : string → string.

(** A path [{ type: String, required: true, trim: true }]: what is stored
    for the value assigned, when the validator accepts it (it refuses
    [undefined] and the empty string). *)
Definition requiredString (v : option string) : option string :=
  match v with
  | Some s => if bool_decide (trim s = EmptyString) then None else Some (trim s)
  | None => None
  end.

(** [router.put('/:id')] of the customer routes.  A missing [creditLimit]
    is assigned as [undefined] and rejected by [save()], the path being
    required. *)
Definition putCustomer (id : nat) (body : CustomerBody.t)
    : Registry → Registry * (CustomerRouteError + Customer.t) :=
  λ r,
    match customers (ledger r) !! id with
    | None => (r, inl NotFound404)
    | Some customer =>
        if limitBelow (CustomerBody.creditLimit body) (Customer.creditBalance customer)
        then (r, inl LimitBelowBalance)
        else if codeUsedByOther (trim <$> CustomerBody.code body) id (codes r)
        then (r, inl CodeAlreadyExists)
        else
          match requiredString (CustomerBody.name body),
                requiredString (CustomerBody.code body),
                CustomerBody.emailAccepted body,
                CustomerBody.creditLimit body with
          | Some _, Some code, true, Some creditLimit =>
              let customer' := Customer.set_creditLimit creditLimit customer in
              match saveCustomer id customer' (ledger r) with
              | (Ok _, db') => (mkRegistry (<[id := code]> (codes r)) db', inr customer')
              | (Throw e, _) => (r, inl (SaveRejected e))
              end
          | _, _, _, _ => (r, inl (SaveRejected ValidationError))
          end
    end.

(** [router.post('/')] of the customer routes: the new customer starts
    with [creditBalance: 0]; a missing [creditLimit] takes the schema
    default 0.  The new [_id] is one no customer has. *)
Definition postCustomer (body : CustomerBody.t)
    : Registry → Registry * (CustomerRouteError + nat * Customer.t) :=
  λ r,
    if codeUsed (trim <$> CustomerBody.code body) (codes r)
    then (r, inl CodeAlreadyExists)
    else
      match requiredString (CustomerBody.name body),
            requiredString (CustomerBody.code body),
            CustomerBody.emailAccepted body with
      | Some _, Some code, true =>
          let id := fresh (dom (customers (ledger r)) ∪ dom (codes r)) in
          let customer :=
            Customer.mk (default 0 (CustomerBody.creditLimit body)) 0 [] active in
          match saveCustomer id customer (ledger r) with
          | (Ok _, db') => (mkRegistry (<[id := code]> (codes r)) db', inr (id, customer))
          | (Throw e, _) => (r, inl (SaveRejected e))
          end
      | _, _, _ => (r, inl (SaveRejected ValidationError))
      end.

End CustomerRoutes.

(** *** [GET /notifications/customer/:customerId] *)

(** [Math.floor((dueDate - now) / (1000 * 60 * 60 * 24))] *)
Definition floorDaysUntilDue (dueDate now : Z) : Z := (dueDate - now) `div` MS_PER_DAY.

(** The notifications of the response; [amount = None] is NaN (null in
    the JSON of the response). *)
Inductive CustomerNotification :=
  | N_overdue (daysOverdue : Z) (amount : option Z) (dueDate : Z) (saleId : nat)
  | N_upcoming (daysUntilDue : Z) (amount : option Z) (dueDate : Z) (saleId : nat)
  | N_credit_warning (percentage : JSNumber) (currentBalance creditLimit : Z).

(** The order of [.sort({ 'creditDetails.dueDate': 1 })]: a sale without
    due date comes first. *)
Definition dueDate_le (x y : nat * Sale.t) : Prop :=
  match Sale.creditDetails_dueDate x.2, Sale.creditDetails_dueDate y.2 with
  | None, _ => True
  | Some _, None => False
  | Some a, Some b => a ≤ b
  end.

Global Instance dueDate_le_dec x y : Decision (dueDate_le x y).
Proof.
  unfold dueDate_le.
  destruct (Sale.creditDetails_dueDate x.2), (Sale.creditDetails_dueDate y.2); apply _.
Defined.

(** The body of [sales.forEach]: what one sale adds to the list.  Without
    a due date the day count is NaN and neither test holds.  The amount is
    [sale.totalAmount - sale.paidAmount]. *)
Definition saleNotification (now : Z) (p : nat * Sale.t) : list CustomerNotification :=
  match Sale.creditDetails_dueDate p.2 with
  | None => []
  | Some dueDate =>
      let daysUntilDue := floorDaysUntilDue dueDate now in
      let amount := js_minus (Some (Sale.totalAmount p.2)) (Sale.paidAmount p.2) in
      if daysUntilDue <? 0 then [N_overdue (Z.abs daysUntilDue) amount dueDate p.1]
      else if daysUntilDue <=? 7 then [N_upcoming daysUntilDue amount dueDate p.1]
      else []
  end.

(** The credit warning the route appends. *)
Definition utilizationWarning (customer : Customer.t) : list CustomerNotification :=
  if js_ge (percentageUsed customer) 70
  then [N_credit_warning (Math_round (percentageUsed customer))
          (Customer.creditBalance customer) (Customer.creditLimit customer)]
  else [].

(** [router.get('/customer/:customerId')] of the notification routes *)
Definition getNotifications (now : Z) (customerId : nat) (db : DB)
    : Response (list CustomerNotification) :=
  match customers db !! customerId with
  | None => Failure 404 CustomerNotFound
  | Some customer =>
      let sales :=
        merge_sort dueDate_le
          (filter (λ p, is_pending_credit_of customerId p.2 = true) (map_to_list (sales db))) in
      Success (flat_map (saleNotification now) sales ++ utilizationWarning customer)
  end.

(** *** [generateAgingReport] of the report routes *)

(** The filter [POST /reports/generate] builds: the customers of the
    request when it names any, and the range of [createdAt] when it has
    both dates. *)
Module ReportFilter.
Record t := mk {
  customers : list nat;
  startDate : option Z;
  endDate : option Z
}.

Definition matches (f : t) (s : Sale.t) : bool :=
  (bool_decide (customers f = []) || bool_decide (Sale.customer s ∈ customers f))
  && match startDate f, endDate f with
     | Some start, Some end_ => (start <=? Sale.createdAt s) && (Sale.createdAt s <=? end_)
     | _, _ => true
     end.
End ReportFilter.

Inductive AgingBucket := b_current | b_30days | b_60days | b_90days | b_over90days.

Global Instance AgingBucket_eq_dec : EqDecision AgingBucket.
Proof. solve_decision. Defined.

Module AgingEntry.
Record t := mk {
  (** the customer whose name is shown *)
  customer : nat;
  saleId : nat;
  (** [None] is NaN *)
  amount : option Z;
  dueDate : option Z;
  (** [None] is NaN, the day count of a sale without due date *)
  daysOverdue : option Z
}.
End AgingEntry.

(** The object [aging] with its five arrays. *)
Module Aging.
Record t := mk {
  current : list AgingEntry.t;
  days30 : list AgingEntry.t;
  days60 : list AgingEntry.t;
  days90 : list AgingEntry.t;
  over90days : list AgingEntry.t
}.

Definition empty : t := mk [] [] [] [] [].

Definition bucket (b : AgingBucket) (a : t) : list AgingEntry.t :=
  match b with
  | b_current => current a
  | b_30days => days30 a
  | b_60days => days60 a
  | b_90days => days90 a
  | b_over90days => over90days a
  end.

(** [aging[b].push(entry)] *)
Definition push (b : AgingBucket) (entry : AgingEntry.t) (a : t) : t :=
  match b with
  | b_current => mk (current a ++ [entry]) (days30 a) (days60 a) (days90 a) (over90days a)
  | b_30days => mk (current a) (days30 a ++ [entry]) (days60 a) (days90 a) (over90days a)
  | b_60days => mk (current a) (days30 a) (days60 a ++ [entry]) (days90 a) (over90days a)
  | b_90days => mk (current a) (days30 a) (days60 a) (days90 a ++ [entry]) (over90days a)
  | b_over90days => mk (current a) (days30 a) (days60 a) (days90 a) (over90days a ++ [entry])
  end.
End Aging.

(** [Math.floor((now - new Date(dueDate)) / (1000 * 60 * 60 * 24))] *)
Definition agingDays (now : Z) (dueDate : option Z) : option Z :=
  match dueDate with
  | Some d => Some ((now - d) `div` MS_PER_DAY)
  | None => None
  end.

(** The chain of [if (daysOverdue <= ...) ... else ...]: the bucket an
    entry is pushed to.  Every comparison with NaN is false. *)
Definition agingBucket (daysOverdue : option Z) : AgingBucket :=
  match daysOverdue with
  | Some d =>
      if d <=? 0 then b_current
      else if d <=? 30 then b_30days
      else if d <=? 60 then b_60days
      else if d <=? 90 then b_90days
      else b_over90days
  | None => b_over90days
  end.

(** The entry built for a sale; its amount is
    [sale.totalAmount - sale.paidAmount]. *)
Definition agingEntry (now : Z) (p : nat * Sale.t) : AgingEntry.t :=
  AgingEntry.mk (Sale.customer p.2) p.1
    (js_minus (Some (Sale.totalAmount p.2)) (Sale.paidAmount p.2))
    (Sale.creditDetails_dueDate p.2) (agingDays now (Sale.creditDetails_dueDate p.2)).

(** The loop of [generateAgingReport].  [sale.customer.name] throws for a
    sale whose customer is gone ([populate] leaves null). *)
Fixpoint agingLoop (now : Z) (db : DB) (sales : list (nat * Sale.t)) (aging : Aging.t)
    : Outcome Aging.t :=
  match sales with
  | [] => Ok aging
  | p :: rest =>
      match customers db !! Sale.customer p.2 with
      | None => Throw TypeError_null
      | Some _ =>
          let entry := agingEntry now p in
          agingLoop now db rest (Aging.push (agingBucket (AgingEntry.daysOverdue entry)) entry aging)
      end
  end.

(** [generateAgingReport(filter)] *)
Definition generateAgingReport (now : Z) (f : ReportFilter.t) (db : DB) : Outcome Aging.t :=
  agingLoop now db
    (filter (λ p, ReportFilter.matches f p.2 = true ∧ is_pending_credit p.2 = true)
            (map_to_list (sales db)))
    Aging.empty.

(** ** More sample data *)

Module Sample2.

(** Customer 1 with nothing owed and one credit sale, [_id] 7, of 100,
    paid and completed. *)
Definition settled : DB :=
  mkDB {[ 1%nat := Sample.customer 0 ]}
       {[ 7%nat := Sale.set_status completed (Sample.sale 100 100 10) ]} [].

End Sample2.

Module Sample3.

(** Customer 1 with one pending credit sale, [_id] 7, of 100, due at
    [dueDate]. *)
Definition due (dueDate : Z) : DB :=
  mkDB {[ 1%nat := Sample.customer 100 ]}
       {[ 7%nat := Sale.mk 1%nat 100 credit (Some dueDate) (Some 0) pending 0 ]} [].

End Sample3.

(** * Properties *)

(** ** Running handler code *)

Lemma require_Some {A} (a : A) (e : Err) (db : DB) : require (Some a) e db = (Ok a, db).
Proof. done. Qed.

Lemma findCustomer_run (id : nat) (db : DB) : findCustomer id db = (Ok (customers db !! id), db).
Proof. done. Qed.

Lemma findSale_run (id : nat) (db : DB) : findSale id db = (Ok (sales db !! id), db).
Proof. done. Qed.

Lemma saveSale_accepts (id : nat) (s : Sale.t) (db : DB) :
  validate_sale s = true →
  saveSale id s db = (Ok tt, mkDB (customers db) (<[id := s]> (sales db)) (payments db)).
Proof. unfold saveSale. by intros ->. Qed.

(** ** Persistence lemmas *)

(** A customer that [save()] accepts satisfies [0 ≤ balance ≤ limit]. *)
Lemma saveCustomer_ok (id : nat) (c : Customer.t) (db db' : DB) :
  saveCustomer id c db = (Ok tt, db') →
  0 ≤ Customer.creditBalance c ≤ Customer.creditLimit c
  ∧ db' = mkDB (<[id := c]> (customers db)) (sales db) (payments db).
Proof.
  unfold saveCustomer, validate_customer, customer_pre_save.
  destruct (0 <=? Customer.creditLimit c) eqn:Hl; simpl; [|by intros [=]].
  destruct (0 <=? Customer.creditBalance c) eqn:Hb; simpl; [|by intros [=]].
  destruct (forallb _ _); simpl; [|by intros [=]].
  unfold mbind, M_bind, throw, mret, M_ret, get_db, put_db.
  destruct (Customer.creditLimit c <? Customer.creditBalance c) eqn:Hh; [by intros [=]|].
  intros [= <-]. split; [lia|done].
Qed.

(** [save()] changes nothing when it throws. *)
Lemma saveCustomer_throw (id : nat) (c : Customer.t) (db db' : DB) (e : Err) :
  saveCustomer id c db = (Throw e, db') → db' = db.
Proof.
  unfold saveCustomer, customer_pre_save.
  unfold mbind, M_bind, throw, mret, M_ret, get_db, put_db.
  destruct (validate_customer c); [|by intros [= _ <-]].
  destruct (Customer.creditLimit c <? Customer.creditBalance c); by intros [=].
Qed.

(** A handler that aborts its transaction in the [catch] block leaves the
    committed database as it was whenever it answers with a failure. *)
Lemma in_transaction_failure {A} (code : Z) (body : M A) (db db' : DB) (code' : Z) (e : Err) :
  in_transaction code body db = (db', Failure code' e) → db' = db.
Proof. unfold in_transaction. destruct (body db) as [[a|e'] db'']; by intros [=]. Qed.

(** [POST /customers/:id/payments] is all-or-nothing. *)
Lemma postCustomerPayment_failure (id : nat) (body : CustomerPaymentBody.t) (db db' : DB)
    (code : Z) (e : Err) :
  postCustomerPayment id body db = (db', Failure code e) → db' = db.
Proof. apply in_transaction_failure. Qed.

Lemma filtered_keys_NoDup {A} (P : nat * A → Prop) `{∀ x, Decision (P x)}
    (m : gmap nat A) :
  NoDup (filter P (map_to_list m)).*1.
Proof.
  apply (sublist_NoDup _ (map_to_list m).*1); [apply NoDup_fst_map_to_list|].
  apply fmap_sublist, sublist_filter.
Qed.

(** ** Bulk payments *)

(** In a session, an element of a bulk request whose amount is not
    negative fails and writes nothing: a missing field, an unknown
    customer and a customer without pending sale are refused before any
    write, and otherwise the first payment record of the allocation has
    the amount NaN and is rejected. *)
Lemma processOne_throws (sortByCreatedAt : list (nat * Sale.t) → list (nat * Sale.t))
    (paymentData : PaymentData.t) (db : DB) :
  (∀ amount, PaymentData.amount paymentData = Some amount → 0 ≤ amount) →
  ∃ e, processOne sortByCreatedAt paymentData db = (Throw e, db)
       ∧ e ∈ [MissingRequiredPaymentFields; CustomerNotFound; NoPendingSales; ValidationError].
Proof.
  intros Hamount. unfold processOne.
  destruct (PaymentData.customerId paymentData) as [customerId|];
    [|eexists; split; [reflexivity|set_solver]].
  unfold mbind at 1, M_bind at 1. rewrite require_Some.
  destruct (PaymentData.amount paymentData) as [amount|] eqn:Ha;
    [|eexists; split; [reflexivity|set_solver]].
  specialize (Hamount amount eq_refl). unfold truthy.
  destruct (amount =? 0) eqn:Hz; [eexists; split; [reflexivity|set_solver]|].
  apply Z.eqb_neq in Hz.
  unfold mbind at 1, M_bind at 1. rewrite require_Some.
  destruct (PaymentData.date paymentData) as [date|];
    [|eexists; split; [reflexivity|set_solver]].
  unfold mbind at 1, M_bind at 1. rewrite require_Some.
  destruct (PaymentData.method paymentData) as [method|];
    [|eexists; split; [reflexivity|set_solver]].
  unfold mbind at 1, M_bind at 1. rewrite require_Some.
  unfold mbind at 1, M_bind at 1. rewrite findCustomer_run.
  destruct (customers db !! customerId) as [customer|];
    [|eexists; split; [reflexivity|set_solver]].
  unfold mbind at 1, M_bind at 1. rewrite require_Some.
  unfold mbind at 1, M_bind at 1, get_db at 1.
  destruct (findPendingSales sortByCreatedAt customerId db) as [|[saleId sale] rest].
  { eexists; split; [reflexivity|set_solver]. }
  rewrite bool_decide_eq_false_2 by done.
  unfold allocate. destruct (amount <=? 0) eqn:Hle; [apply Z.leb_le in Hle; lia|].
  eexists; split; [reflexivity|set_solver].
Qed.

(** So a request of such elements, run in a session, is answered with
    every element under [failed], and nothing is written. *)
Lemma bulkLoop_all_fail (sortByCreatedAt : list (nat * Sale.t) → list (nat * Sale.t))
    (payments : list PaymentData.t) (results : BulkResults.t) (db : DB) :
  Forall (λ paymentData, ∀ amount, PaymentData.amount paymentData = Some amount → 0 ≤ amount)
         payments →
  ∃ errors,
    bulkLoop sortByCreatedAt payments results db
    = (Ok (BulkResults.mk (BulkResults.successful results)
             (BulkResults.failed results ++ zip (PaymentData.customerId <$> payments) errors)),
       db)
    ∧ length errors = length payments.
Proof.
  intros Hall. revert results.
  induction Hall as [|paymentData payments Hp _ IH]; intros results.
  - exists []. simpl. rewrite app_nil_r. by destruct results.
  - destruct (processOne_throws sortByCreatedAt paymentData db Hp) as (e & Hrun & _).
    cbn [bulkLoop]. unfold mbind at 1, M_bind at 1, try_catch.
    unfold mbind at 1, M_bind at 1. rewrite Hrun. unfold mret at 1, M_ret at 1.
    destruct (IH (BulkResults.mk (BulkResults.successful results)
                    (BulkResults.failed results
                       ++ [(PaymentData.customerId paymentData, e)])))
      as (errors & -> & Hlen).
    exists (e :: errors). cbn [BulkResults.successful BulkResults.failed].
    rewrite <- app_assoc. simpl. split; [done|]. by rewrite Hlen.
Qed.

(** C1: the bulk handler allocates nothing.  Customer 1 has two pending
    credit sales, 200 (older) and 500 (newer), and pays 300.  The
    waterfall of the design document applies 200 and 100.  The handler
    throws at its first statement, [mongoose] not being imported: no
    answer, nothing written.  Were the session there, the element would
    fail all the same and nothing would be written, the balance of a sale
    being computed from [sale.paidAmount], which no sale has. *)
Theorem C1_bulk_payment_allocates_nothing
    (sortByCreatedAt : list (nat * Sale.t) → list (nat * Sale.t)) :
  let db := Sample.two_sales in
  let request := Some [Sample.bulkPayment 300] in
  waterfall 300 [200; 500] = [200; 100]
  ∧ postBulk sortByCreatedAt request db = (db, Uncaught ReferenceError_mongoose)
  ∧ ∃ e, bulkSession sortByCreatedAt request db
         = (db, Success (BulkResults.mk [] [(Some 1%nat, e)])).
Proof.
  cbv zeta. split; [reflexivity|]. split; [reflexivity|].
  destruct (bulkLoop_all_fail sortByCreatedAt [Sample.bulkPayment 300]
              (BulkResults.mk [] []) Sample.two_sales) as (errors & Hrun & Hlen).
  { apply Forall_singleton. intros amount [= <-]. lia. }
  destruct errors as [|e [|? ?]]; try discriminate Hlen.
  exists e. unfold bulkSession, in_transaction.
  unfold mbind, M_bind. rewrite require_Some. by rewrite Hrun.
Qed.

(** C2: a payment above all that is owed gets no ExcessPayment.  Customer
    1 owes 100 on one pending credit sale and pays 150.  The handler
    throws at its first statement as on every request; nothing is
    written, and the caller gets no answer.  Were the session there, the
    element would be put under [failed] of a response that is no error,
    for a reason that no overpayment error names. *)
Theorem C2_bulk_excess_payment_gets_no_answer
    (sortByCreatedAt : list (nat * Sale.t) → list (nat * Sale.t)) :
  let db := Sample.ledger 100 0 in
  let request := Some [Sample.bulkPayment 150] in
  Sale.remainingBalance (Sample.sale 100 0 10) = 100
  ∧ postBulk sortByCreatedAt request db = (db, Uncaught ReferenceError_mongoose)
  ∧ ∃ e, bulkSession sortByCreatedAt request db
         = (db, Success (BulkResults.mk [] [(Some 1%nat, e)]))
         ∧ is_overpayment_error e = false.
Proof.
  cbv zeta. split; [reflexivity|]. split; [reflexivity|].
  destruct (processOne_throws sortByCreatedAt (Sample.bulkPayment 150) (Sample.ledger 100 0))
    as (e & Hrun & He).
  { intros amount [= <-]. lia. }
  exists e. split.
  - unfold bulkSession, in_transaction.
    unfold mbind at 1, M_bind at 1. rewrite require_Some.
    cbn [bulkLoop]. unfold mbind at 1, M_bind at 1, try_catch.
    unfold mbind at 1, M_bind at 1. rewrite Hrun. reflexivity.
  - repeat (apply elem_of_cons in He as [->|He]; [reflexivity|]).
    by apply elem_of_nil in He.
Qed.

(** ** The status of a sale *)

(** C5: a sale is completed by half of what it costs.  Customer 1 owes 100
    on the pending credit sale 7 and pays 50 for it at the counter
    ([POST /customers/1/payments]).  The handler pushes the payment on the
    history, sums the payments of the history for the sale, and adds the
    amount to the sum once more: 50 + 50 reaches the total, and the sale is
    saved as completed, with 50 paid by the history and nothing by
    [creditDetails.paidAmount]. *)
Theorem C5_payment_of_half_completes_sale :
  let db := Sample.ledger 100 0 in
  let answer := postCustomerPayment 1 (CustomerPaymentBody.mk 50 (Some m_cash) (Some 7%nat)) db in
  ∃ sale' customer',
    answer.2 = Success customer'
    ∧ customers answer.1 !! 1%nat = Some customer'
    ∧ sales answer.1 !! 7%nat = Some sale'
    ∧ Sale.status sale' = completed
    ∧ Sale.totalAmount sale' = 100
    ∧ completedTotalFor 7 (Customer.paymentHistory customer') = 50
    ∧ Sale.or0 (Sale.creditDetails_paidAmount sale') = 0
    ∧ Customer.creditBalance customer' = 50.
Proof. cbv zeta. eexists _, _. vm_compute. repeat split; reflexivity. Qed.

(** What the override does to the balance when it completes a credit
    sale: it subtracts the total of the sale. *)
Lemma patchStatus_completed_credit (id : nat) (s : Sale.t) (c : Customer.t) (db : DB) :
  sales db !! id = Some s →
  Sale.status s ≠ completed →
  Sale.paymentType s = credit →
  customers db !! Sale.customer s = Some c →
  validate_sale s = true →
  patchStatus id completed db
  = (mkDB (<[Sale.customer s :=
               Customer.set_creditBalance (Customer.creditBalance c - Sale.totalAmount s) c]>
             (customers db))
          (<[id := Sale.set_status completed s]> (sales db))
          (payments db),
     Success (Sale.set_status completed s)).
Proof.
  intros Hs Hst Hpt Hc Hv.
  unfold patchStatus, in_transaction, mbind, M_bind.
  rewrite findSale_run, Hs. cbn [require]. unfold mret at 1, M_ret at 1.
  rewrite bool_decide_eq_false_2 by done.
  rewrite bool_decide_eq_true_2 by done. rewrite bool_decide_eq_true_2 by done.
  cbn [andb]. rewrite findCustomer_run, Hc. cbn [require]. unfold mret at 1, M_ret at 1.
  unfold incCreditBalance, mbind, M_bind, get_db, put_db. rewrite Hc.
  rewrite saveSale_accepts by done. cbn [customers sales payments].
  unfold mret, M_ret. reflexivity.
Qed.

(** C6: the override subtracts the total of the sale, not what is still
    owed on it.  Customer 1 owes 60 on a sale of 100 with 40 paid;
    completing the sale by hand leaves a balance of -40. *)
Theorem C6_override_subtracts_total_of_partly_paid_sale :
  let db := Sample.ledger 60 40 in
  let db' := (patchStatus 7 completed db).1 in
  Sale.remainingBalance (Sample.sale 100 40 10) = 60
  ∧ Sale.status <$> sales db' !! 7%nat = Some completed
  ∧ Customer.creditBalance <$> customers db' !! 1%nat = Some (-40).
Proof. by vm_compute. Qed.

(** C4: the override is not checked against the balance.  Customer 1
    owes 100 on one sale, pays 50 at the counter
    ([POST /customers/1/payments]), and the sale is then completed by
    hand: the committed balance is -50. *)
Theorem C4_override_commits_negative_balance :
  let db0 := Sample.ledger 100 0 in
  let db1 := (postCustomerPayment 1 (CustomerPaymentBody.mk 50 (Some m_cash) None) db0).1 in
  let db2 := (patchStatus 7 completed db1).1 in
  Customer.creditBalance <$> customers db1 !! 1%nat = Some 50
  ∧ (patchStatus 7 completed db1).2 = Success (Sale.set_status completed (Sample.sale 100 0 10))
  ∧ Customer.creditBalance <$> customers db2 !! 1%nat = Some (-50).
Proof. by vm_compute. Qed.

(** ** The reminder sweep *)

Lemma isReminderDay_spec (d : Z) : isReminderDay d = true ↔ d = 7 ∨ d = 3 ∨ d = 1.
Proof.
  unfold isReminderDay, REMINDER_INTERVALS_FIRST, REMINDER_INTERVALS_SECOND,
    REMINDER_INTERVALS_THIRD.
  rewrite !orb_true_iff, !Z.eqb_eq. tauto.
Qed.

Lemma isOverdueDay_spec (d : Z) : isOverdueDay d = true ↔ d = 1 ∨ d = 7 ∨ d = 30.
Proof.
  unfold isOverdueDay, OVERDUE_INTERVALS_FIRST, OVERDUE_INTERVALS_SECOND,
    OVERDUE_INTERVALS_THIRD.
  rewrite !orb_true_iff, !Z.eqb_eq. tauto.
Qed.

(** A positive number of days is counted exactly while that many full
    days, and not one more, lie between the two instants. *)
Lemma differenceInDays_pos (dateLeft dateRight d : Z) :
  0 < d →
  differenceInDays dateLeft dateRight = d
  ↔ d * MS_PER_DAY ≤ dateLeft - dateRight < (d + 1) * MS_PER_DAY.
Proof.
  unfold differenceInDays, MS_PER_DAY. intros Hd.
  destruct (decide (0 ≤ dateLeft - dateRight)) as [Hpos|Hneg].
  - rewrite Z.quot_div_nonneg by lia. split.
    + intros <-.
      pose proof (Z.mul_div_le (dateLeft - dateRight) 86400000 ltac:(lia)).
      pose proof (Z.mul_succ_div_gt (dateLeft - dateRight) 86400000 ltac:(lia)). lia.
    + intros [Hlo Hhi]. symmetry. apply (Z.div_unique _ _ _ (dateLeft - dateRight - d * 86400000)); lia.
  - split; [|lia]. intros Hq.
    assert (Z.quot (dateLeft - dateRight) 86400000 ≤ 0); [|lia].
    replace (dateLeft - dateRight) with (- (dateRight - dateLeft)) by lia.
    rewrite Z.quot_opp_l by lia.
    assert (0 ≤ Z.quot (dateRight - dateLeft) 86400000) by (apply Z.quot_pos; lia). lia.
Qed.

Lemma is_pending_credit_spec (s : Sale.t) :
  is_pending_credit s = true ↔ Sale.status s = pending ∧ Sale.paymentType s = credit.
Proof.
  unfold is_pending_credit. rewrite andb_true_iff, !bool_decide_eq_true. tauto.
Qed.

Lemma upcomingQuery_elem (db : DB) (id : nat) (s : Sale.t) :
  (id, s) ∈ upcomingQuery db ↔
  sales db !! id = Some s ∧ Sale.status s = pending ∧ Sale.paymentType s = credit
  ∧ is_Some (Sale.creditDetails_dueDate s).
Proof.
  unfold upcomingQuery. rewrite list_elem_of_filter, elem_of_map_to_list. simpl.
  rewrite is_pending_credit_spec. tauto.
Qed.

Lemma overdueQuery_elem (now : Z) (db : DB) (id : nat) (s : Sale.t) :
  (id, s) ∈ overdueQuery now db ↔
  sales db !! id = Some s ∧ Sale.status s = pending ∧ Sale.paymentType s = credit
  ∧ ∃ dueDate, Sale.creditDetails_dueDate s = Some dueDate ∧ dueDate < now.
Proof.
  unfold overdueQuery. rewrite list_elem_of_filter, elem_of_map_to_list. simpl.
  rewrite is_pending_credit_spec. unfold dueBefore.
  destruct (Sale.creditDetails_dueDate s) as [dueDate|].
  - split.
    + intros [[[??] ?] ?]. eauto 10.
    + intros (?&?&?&dd&[= <-]&?). done.
  - split; [by intros [[_ []] _]|]. by intros (_&_&_&?&?&_).
Qed.

(** A sale is evaluated in a walk when it is the head, or evaluated in
    the walk over the rest, and the head was got past. *)
Lemma evaluated_cons (fails : nat * Sale.t → bool) (p sale : nat * Sale.t)
    (l : list (nat * Sale.t)) :
  evaluated fails (p :: l) sale ↔ fails p = false ∧ (sale = p ∨ evaluated fails l sale).
Proof.
  unfold evaluated. split.
  - intros ([|q before] & after & Heq & Hall); simpl in *.
    + injection Heq as -> ->. rewrite Forall_singleton in Hall. split; [done|]. by left.
    + injection Heq as -> ->. rewrite Forall_cons in Hall. destruct Hall as [Hq Hall].
      split; [done|]. right. eauto.
  - intros [Hp [-> | (before & after & -> & Hall)]].
    + exists [], l. split; [done|]. simpl. by rewrite Forall_singleton.
    + exists (p :: before), after. split; [done|]. simpl. by rewrite Forall_cons.
Qed.

Lemma evaluated_nil (fails : nat * Sale.t → bool) (sale : nat * Sale.t) :
  ¬ evaluated fails [] sale.
Proof. intros ([|??] & after & Heq & _); discriminate Heq. Qed.

Lemma evaluated_elem (fails : nat * Sale.t → bool) (l : list (nat * Sale.t))
    (sale : nat * Sale.t) :
  evaluated fails l sale → sale ∈ l.
Proof. intros (before & after & -> & _). apply elem_of_app. right. by left. Qed.

(** When no sender can throw, every sale of the walk is evaluated. *)
Lemma evaluated_all (fails : nat * Sale.t → bool) (l : list (nat * Sale.t))
    (sale : nat * Sale.t) :
  Forall (λ p, fails p = false) l → sale ∈ l → evaluated fails l sale.
Proof.
  intros Hall (before & after & ->)%list_elem_of_split.
  exists before, after. split; [done|].
  rewrite Forall_app, Forall_cons in Hall. destruct Hall as [Hb [Hs _]].
  rewrite Forall_app, Forall_singleton. done.
Qed.

Lemma upcomingLoop_elem (now : Z) (db : DB) (l : list (nat * Sale.t)) (c id : nat) (d : Z) :
  PaymentReminder c id d ∈ upcomingLoop now db l ↔
  ∃ s dueDate, evaluated (reminderFails now db) l (id, s) ∧ Sale.customer s = c
    ∧ Sale.creditDetails_dueDate s = Some dueDate
    ∧ d = differenceInDays dueDate now ∧ isReminderDay d = true.
Proof.
  induction l as [|[id' s'] l IH].
  - split; [by intros ?%elem_of_nil|]. by intros (?&?&?%evaluated_nil&_).
  - setoid_rewrite evaluated_cons. cbn [upcomingLoop]. unfold reminderFails at 1. simpl.
    destruct (Sale.creditDetails_dueDate s') as [due|] eqn:Hdue.
    2:{ rewrite IH. split.
        - intros (s&dd&?&?). exists s, dd. tauto.
        - intros (s&dd&[_ [[= -> ->]|?]]&?&?&?); [congruence|]. exists s, dd. tauto. }
    destruct (isReminderDay (differenceInDays due now)) eqn:Hday.
    2:{ rewrite IH. split.
        - intros (s&dd&?&?). exists s, dd. tauto.
        - intros (s&dd&[_ [[= -> ->]|?]]&?&Hd&->&?); [congruence|]. exists s, dd. tauto. }
    destruct (customers db !! Sale.customer s') as [customer|] eqn:Hc.
    + rewrite bool_decide_eq_false_2 by done. rewrite elem_of_cons, IH. split.
      * intros [[= -> -> ->]|(s&dd&?&?)].
        -- exists s', due. split; [split; [done|by left]|done].
        -- exists s, dd. tauto.
      * intros (s&dd&[_ [[= -> ->]|?]]&Hcust&Hd&->&?).
        -- left. congruence.
        -- right. exists s, dd. tauto.
    + rewrite bool_decide_eq_true_2 by done. split; [by intros ?%elem_of_nil|].
      by intros (?&?&[? _]&_).
Qed.

Lemma overdueLoop_elem (now : Z) (db : DB) (l : list (nat * Sale.t)) (c id : nat) (d : Z) :
  OverdueNotification c id d ∈ overdueLoop now db l ↔
  ∃ s dueDate, evaluated (noticeFails now db) l (id, s) ∧ Sale.customer s = c
    ∧ Sale.creditDetails_dueDate s = Some dueDate
    ∧ d = differenceInDays now dueDate ∧ isOverdueDay d = true.
Proof.
  induction l as [|[id' s'] l IH].
  - split; [by intros ?%elem_of_nil|]. by intros (?&?&?%evaluated_nil&_).
  - setoid_rewrite evaluated_cons. cbn [overdueLoop]. unfold noticeFails at 1. simpl.
    destruct (Sale.creditDetails_dueDate s') as [due|] eqn:Hdue.
    2:{ rewrite IH. split.
        - intros (s&dd&?&?). exists s, dd. tauto.
        - intros (s&dd&[_ [[= -> ->]|?]]&?&?&?); [congruence|]. exists s, dd. tauto. }
    destruct (isOverdueDay (differenceInDays now due)) eqn:Hday.
    2:{ rewrite IH. split.
        - intros (s&dd&?&?). exists s, dd. tauto.
        - intros (s&dd&[_ [[= -> ->]|?]]&?&Hd&->&?); [congruence|]. exists s, dd. tauto. }
    destruct (customers db !! Sale.customer s') as [customer|] eqn:Hc.
    + rewrite bool_decide_eq_false_2 by done. rewrite elem_of_cons, IH. split.
      * intros [[= -> -> ->]|(s&dd&?&?)].
        -- exists s', due. split; [split; [done|by left]|done].
        -- exists s, dd. tauto.
      * intros (s&dd&[_ [[= -> ->]|?]]&Hcust&Hd&->&?).
        -- left. congruence.
        -- right. exists s, dd. tauto.
    + rewrite bool_decide_eq_true_2 by done. split; [by intros ?%elem_of_nil|].
      by intros (?&?&[? _]&_).
Qed.

(** The sales notified by either loop are a sub-list, in order, of the
    sales the loop walks: no sale is notified twice. *)
Lemma upcomingLoop_sublist (now : Z) (db : DB) (l : list (nat * Sale.t)) :
  omap notifiedSale (upcomingLoop now db l) `sublist_of` l.*1.
Proof.
  induction l as [|[id s] l IH]; simpl; [done|].
  destruct (Sale.creditDetails_dueDate s); [|by apply sublist_cons].
  destruct (isReminderDay _); [|by apply sublist_cons].
  destruct (customers db !! _); simpl; [by apply sublist_skip|apply sublist_nil_l].
Qed.

Lemma overdueLoop_sublist (now : Z) (db : DB) (l : list (nat * Sale.t)) :
  omap notifiedSale (overdueLoop now db l) `sublist_of` l.*1.
Proof.
  induction l as [|[id s] l IH]; simpl; [done|].
  destruct (Sale.creditDetails_dueDate s); [|by apply sublist_cons].
  destruct (isOverdueDay _); [|by apply sublist_cons].
  destruct (customers db !! _); simpl; [by apply sublist_skip|apply sublist_nil_l].
Qed.

(** With the customer of every sale in the database, no sender throws. *)
Lemma reminderFails_stored (now : Z) (db : DB) (p : nat * Sale.t) :
  is_Some (customers db !! Sale.customer p.2) → reminderFails now db p = false.
Proof.
  intros [c Hc]. unfold reminderFails. destruct (Sale.creditDetails_dueDate p.2); [|done].
  rewrite bool_decide_eq_false_2 by congruence. apply andb_false_r.
Qed.

Lemma noticeFails_stored (now : Z) (db : DB) (p : nat * Sale.t) :
  is_Some (customers db !! Sale.customer p.2) → noticeFails now db p = false.
Proof.
  intros [c Hc]. unfold noticeFails. destruct (Sale.creditDetails_dueDate p.2); [|done].
  rewrite bool_decide_eq_false_2 by congruence. apply andb_false_r.
Qed.

(** C7. In one sweep at the instant [now], whatever the order in which
    the database returns the sales of the two queries, the sales that the
    loop evaluates get an upcoming reminder exactly on the day offsets 7,
    3 and 1 (that many full days, and not one more, until the due date),
    and an overdue notice exactly on the offsets 1, 7 and 30 past the due
    date; the test is an equality on the offset.  The loop evaluates every
    sale of its query as long as the customer of every sale is in the
    database (a sender that is handed a customer that is gone throws, and
    ends the loop).  No sale is notified twice in a sweep, and in sweeps
    that are a whole number of days apart a sale is on each offset in one
    sweep only. *)
Theorem C7_reminders_on_exact_day_offsets (now : Z) (db : DB)
    (upcoming overdue : list (nat * Sale.t)) :
  upcoming ≡ₚ upcomingQuery db →
  overdue ≡ₚ overdueQuery now db →
  (∀ c id d,
     PaymentReminder c id d ∈ upcomingLoop now db upcoming ↔
     ∃ s dueDate,
       sales db !! id = Some s ∧ Sale.customer s = c
       ∧ Sale.status s = pending ∧ Sale.paymentType s = credit
       ∧ Sale.creditDetails_dueDate s = Some dueDate
       ∧ (d = 7 ∨ d = 3 ∨ d = 1)
       ∧ d * 86400000 ≤ dueDate - now < (d + 1) * 86400000
       ∧ evaluated (reminderFails now db) upcoming (id, s))
  ∧ (∀ c id d,
     OverdueNotification c id d ∈ overdueLoop now db overdue ↔
     ∃ s dueDate,
       sales db !! id = Some s ∧ Sale.customer s = c
       ∧ Sale.status s = pending ∧ Sale.paymentType s = credit
       ∧ Sale.creditDetails_dueDate s = Some dueDate
       ∧ (d = 1 ∨ d = 7 ∨ d = 30)
       ∧ d * 86400000 ≤ now - dueDate < (d + 1) * 86400000
       ∧ evaluated (noticeFails now db) overdue (id, s))
  ∧ ((∀ id s, sales db !! id = Some s → is_Some (customers db !! Sale.customer s)) →
     ∀ id s dueDate,
       sales db !! id = Some s →
       Sale.status s = pending → Sale.paymentType s = credit →
       Sale.creditDetails_dueDate s = Some dueDate →
       evaluated (reminderFails now db) upcoming (id, s)
       ∧ (dueDate < now → evaluated (noticeFails now db) overdue (id, s)))
  ∧ NoDup (omap notifiedSale (upcomingLoop now db upcoming))
  ∧ NoDup (omap notifiedSale (overdueLoop now db overdue))
  ∧ (∀ dueDate d k k',
       0 < d →
       differenceInDays dueDate (now + k * 86400000) = d →
       differenceInDays dueDate (now + k' * 86400000) = d → k = k')
  ∧ (∀ dueDate d k k',
       0 < d →
       differenceInDays (now + k * 86400000) dueDate = d →
       differenceInDays (now + k' * 86400000) dueDate = d → k = k').
Proof.
  intros Hup Hov.
  assert (Hupcoming : ∀ id s, (id, s) ∈ upcoming ↔ (id, s) ∈ upcomingQuery db)
    by (intros; by rewrite Hup).
  assert (Hoverdue : ∀ id s, (id, s) ∈ overdue ↔ (id, s) ∈ overdueQuery now db)
    by (intros; by rewrite Hov).
  split; [|split; [|split; [|split; [|split; [|split]]]]].
  - intros c id d. rewrite upcomingLoop_elem. split.
    + intros (s & due & Hev & Hc & Hd & -> & Hr).
      apply evaluated_elem in Hev as Hin.
      apply Hupcoming, upcomingQuery_elem in Hin as (Hs & Hst & Hpt & _).
      apply isReminderDay_spec in Hr as Hr'.
      assert (0 < differenceInDays due now) as Hpos by lia.
      pose proof (proj1 (differenceInDays_pos due now _ Hpos) eq_refl) as Hwin.
      unfold MS_PER_DAY in Hwin. exists s, due. done.
    + intros (s & due & Hs & Hc & Hst & Hpt & Hd & Hr & Hwin & Hev).
      exists s, due. split; [done|]. split; [done|]. split; [done|].
      assert (0 < d) as Hpos by lia.
      fold MS_PER_DAY in Hwin.
      apply (differenceInDays_pos due now d Hpos) in Hwin. rewrite Hwin.
      split; [done|]. by apply isReminderDay_spec.
  - intros c id d. rewrite overdueLoop_elem. split.
    + intros (s & due & Hev & Hc & Hd & -> & Hr).
      apply evaluated_elem in Hev as Hin.
      apply Hoverdue, overdueQuery_elem in Hin as (Hs & Hst & Hpt & _).
      apply isOverdueDay_spec in Hr as Hr'.
      assert (0 < differenceInDays now due) as Hpos by lia.
      pose proof (proj1 (differenceInDays_pos now due _ Hpos) eq_refl) as Hwin.
      unfold MS_PER_DAY in Hwin. exists s, due. done.
    + intros (s & due & Hs & Hc & Hst & Hpt & Hd & Hr & Hwin & Hev).
      exists s, due. split; [done|]. split; [done|]. split; [done|].
      assert (0 < d) as Hpos by lia.
      fold MS_PER_DAY in Hwin.
      apply (differenceInDays_pos now due d Hpos) in Hwin. rewrite Hwin.
      split; [done|]. by apply isOverdueDay_spec.
  - intros Hstored id s due Hs Hst Hpt Hd. split.
    + apply evaluated_all.
      * apply Forall_forall. intros [id' s'] (Hs' & _)%Hupcoming%upcomingQuery_elem.
        apply reminderFails_stored. simpl. by eapply Hstored.
      * apply Hupcoming, upcomingQuery_elem. rewrite Hd. eauto.
    + intros Hlt. apply evaluated_all.
      * apply Forall_forall. intros [id' s'] (Hs' & _)%Hoverdue%overdueQuery_elem.
        apply noticeFails_stored. simpl. by eapply Hstored.
      * apply Hoverdue, overdueQuery_elem. eauto 10.
  - eapply sublist_NoDup; [|apply upcomingLoop_sublist].
    rewrite Hup. apply filtered_keys_NoDup.
  - eapply sublist_NoDup; [|apply overdueLoop_sublist].
    rewrite Hov. apply filtered_keys_NoDup.
  - intros due d k k' Hpos Hk Hk'. fold MS_PER_DAY in Hk, Hk'.
    apply differenceInDays_pos in Hk, Hk'; try done. unfold MS_PER_DAY in *. lia.
  - intros due d k k' Hpos Hk Hk'. fold MS_PER_DAY in Hk, Hk'.
    apply differenceInDays_pos in Hk, Hk'; try done. unfold MS_PER_DAY in *. lia.
Qed.

(** A sale that is due in seven days and a half gets the reminder of the
    seventh day, and no other. *)
Lemma C7_witness :
  let dueDate := 7 * MS_PER_DAY + MS_PER_DAY `div` 2 in
  PaymentReminder 1 7 7 ∈ processUpcomingPayments 0 (Sample3.due dueDate)
  ∧ ∀ d, PaymentReminder 1 7 d ∈ processUpcomingPayments 0 (Sample3.due dueDate) → d = 7.
Proof.
  cbv zeta.
  pose proof (C7_reminders_on_exact_day_offsets 0
                (Sample3.due (7 * MS_PER_DAY + MS_PER_DAY `div` 2))
                (upcomingQuery (Sample3.due (7 * MS_PER_DAY + MS_PER_DAY `div` 2)))
                (overdueQuery 0 (Sample3.due (7 * MS_PER_DAY + MS_PER_DAY `div` 2)))
                (reflexivity _) (reflexivity _)) as (Hup & _ & Hall & _).
  split.
  - apply Hup. eexists _, _. split; [reflexivity|]. split; [reflexivity|].
    split; [reflexivity|]. split; [reflexivity|]. split; [reflexivity|].
    split; [by left|]. split; [by vm_compute|].
    eapply Hall; try reflexivity.
    intros id s Hs. exists (Sample.customer 100).
    unfold Sample3.due in Hs. cbn [sales] in Hs.
    apply lookup_singleton_Some in Hs as [_ <-]. reflexivity.
  - intros d (s & due & Hs & _ & _ & _ & Hd & _ & Hwin & _)%Hup.
    unfold Sample3.due in Hs. cbn [sales] in Hs.
    apply lookup_singleton_Some in Hs as [_ <-].
    injection Hd as <-. revert Hwin. unfold MS_PER_DAY.
    change (86400000 `div` 2) with 43200000. lia.
Defined.

(** ** Credit-limit warnings *)

(** The percentage is rounded as JavaScript rounds it: 41 of a limit of 40
    is 102.49999999999999 % in binary64, which [Math.round] makes 102. *)
Example percentageUsed_is_a_binary64 :
  Math_round (percentageUsed (Customer.mk 40 41 [] active)) = of_Z 102.
Proof. vm_compute. reflexivity. Qed.




(** ** Credit purchases of customers that are not active *)

(** C9. For a customer whose status is not ['active'],
    [canMakeCreditPurchase] is false for every amount, and [POST /sales]
    with [paymentType = 'credit'] answers 400 'Credit limit exceeded' and
    changes nothing, whatever the balance, the limit and the amount. *)
Theorem C9_inactive_customer_credit_sale_rejected (A : Type)
    (booking : SaleBody.t → M A) (rollbackStock : SaleBody.t → M unit)
    (db : DB) (body : SaleBody.t) (customerId : nat) (totalAmount : Z)
    (customer : Customer.t) :
  SaleBody.customerId body = Some customerId →
  SaleBody.hasItems body = true →
  SaleBody.paymentType body = Some credit →
  SaleBody.totalAmount body = Some totalAmount →
  totalAmount ≠ 0 →
  customers db !! customerId = Some customer →
  Customer.status customer ≠ active →
  (∀ amount, Customer.canMakeCreditPurchase customer amount = false)
  ∧ postSale A booking rollbackStock body db = (db, Failure 400 CreditLimitExceeded).
Proof.
  intros Hc Hi Hp Ht Hnz Hfound Hstatus.
  assert (Hcan : ∀ amount, Customer.canMakeCreditPurchase customer amount = false).
  { intros amount. unfold Customer.canMakeCreditPurchase.
    by rewrite bool_decide_eq_false_2. }
  split; [done|].
  unfold postSale, no_transaction, try_catch, truthy. rewrite Hc, Hi, Hp, Ht.
  unfold mbind, M_bind, require, mret, M_ret, throw, findCustomer. simpl.
  destruct (totalAmount =? 0) eqn:Hz; [lia|]. simpl.
  rewrite Hfound, Hcan. done.
Qed.

Lemma C9_witness :
  Customer.creditBalance Sample.blockedCustomer + 100
    ≤ Customer.creditLimit Sample.blockedCustomer
  ∧ postSale unit (λ _, mret tt) (λ _, mret tt) (Sample.creditSaleBody 100)
      (mkDB {[ 1%nat := Sample.blockedCustomer ]} ∅ [])
    = (mkDB {[ 1%nat := Sample.blockedCustomer ]} ∅ [], Failure 400 CreditLimitExceeded).
Proof.
  split; [vm_compute; discriminate|].
  apply (C9_inactive_customer_credit_sale_rejected unit (λ _, mret tt) (λ _, mret tt)
           (mkDB {[ 1%nat := Sample.blockedCustomer ]} ∅ []) (Sample.creditSaleBody 100)
           1%nat 100 Sample.blockedCustomer);
    try reflexivity; try discriminate.
Defined.

(** ** Razorpay payments *)

(** The errors [POST /razorpay/verify-payment] can answer with: none of
    them reports an overpayment. *)
Lemma postVerifyPayment_errors (now : Z) (body : VerifyBody.t) (db db' : DB)
    (code : Z) (e : Err) :
  postVerifyPayment now body db = (db', Failure code e) →
  e ∈ [InvalidSignature; ValidationError; BalanceExceedsLimit; ReferenceError_sale;
       TypeError_undefined].
Proof.
  unfold postVerifyPayment, no_transaction, savePayment, saveCustomer,
    customer_pre_save, findSale, findCustomer.
  unfold mbind, M_bind, throw, mret, M_ret, get_db, put_db.
  intros H.
  repeat match type of H with
         | context [if ?b then _ else _] => destruct b; simpl in H
         | context [match ?o with Some _ => _ | None => _ end] => destruct o; simpl in H
         end;
    simplify_eq; set_solver.
Qed.

(** C10: the balance is not updated.  Customer 1 owes 100 on the pending
    credit sale 7, and a verified Razorpay payment of 150 arrives for the
    customer and the sale.  The handler saves the Payment record, finds
    the sale, and throws at [sale.payments.push], [sale.payments] being
    undefined: the answer is 500, and the customer is never read.  The
    balance is 100 as before, not [max(0, 100 - 150)]. *)
Theorem C10_razorpay_payment_leaves_balance :
  let db := Sample.ledger 100 0 in
  let answer := postVerifyPayment 0 (Sample.verifyBody 150) db in
  answer.2 = Failure 500 TypeError_undefined
  ∧ Customer.creditBalance <$> customers answer.1 !! 1%nat = Some 100
  ∧ Z.max 0 (100 - 150) = 0
  ∧ customers answer.1 = customers db.
Proof. cbv zeta. vm_compute. repeat split; reflexivity. Qed.

(** C3: a payment that fails leaves a Payment record.  Customer 1 owes 100
    on the pending credit sale 7, and a verified Razorpay payment of 60
    arrives for the customer and the sale.  The handler opens no session:
    the Payment record is committed by its [save()], the next step throws,
    and the answer is 500 with the record of a completed payment of 60 in
    the database, the sale and the balance being as they were. *)
Theorem C3_failed_razorpay_payment_leaves_record :
  let db := Sample.ledger 100 0 in
  let answer := postVerifyPayment 0 (Sample.verifyBody 60) db in
  answer.2 = Failure 500 TypeError_undefined
  ∧ payments db = []
  ∧ payments answer.1
    = [Payment.mk (Some 7%nat) (Some 1%nat) 60 0 m_razorpay e_completed]
  ∧ sales answer.1 = sales db
  ∧ customers answer.1 = customers db.
Proof. cbv zeta. vm_compute. repeat split; reflexivity. Qed.

(** * Further properties of the code *)

(** ** The Customer model *)

(** [save()] of a customer either writes a document with
    [0 ≤ creditBalance ≤ creditLimit], touching no other document, or
    throws and writes nothing. *)
Theorem save_enforces_credit_bounds (id : nat) (c : Customer.t) (db : DB) :
  match saveCustomer id c db with
  | (Ok _, db') =>
      0 ≤ Customer.creditBalance c ≤ Customer.creditLimit c
      ∧ customers db' !! id = Some c
      ∧ (∀ j, j ≠ id → customers db' !! j = customers db !! j)
      ∧ sales db' = sales db ∧ payments db' = payments db
  | (Throw _, db') => db' = db
  end.
Proof.
  destruct (saveCustomer id c db) as [[[]|e] db'] eqn:Hsave.
  - apply saveCustomer_ok in Hsave as [Hb ->]. simpl.
    split; [done|]. split; [apply lookup_insert_eq|].
    split; [|done]. intros j Hj. by apply lookup_insert_ne.
  - by apply saveCustomer_throw in Hsave.
Qed.

(** [processCreditPayment] of the Customer model: a payment that is not
    positive or exceeds the balance is refused and nothing is written;
    an accepted payment lowers the stored balance by the amount, adds one
    completed entry to the history and leaves the balance within
    [0, creditLimit]. *)
Theorem processCreditPayment_spec (id : nat) (c : Customer.t) (amount : Z)
    (method : option Method) (saleId : option nat) (db : DB) :
  match processCreditPayment id c amount method saleId db with
  | (Ok c', db') =>
      0 < amount ≤ Customer.creditBalance c
      ∧ Customer.creditBalance c' = Customer.creditBalance c - amount
      ∧ Customer.paymentHistory c'
        = Customer.paymentHistory c ++ [HistoryEntry.mk amount method e_completed saleId]
      ∧ 0 ≤ Customer.creditBalance c' ≤ Customer.creditLimit c'
      ∧ customers db' !! id = Some c'
  | (Throw e, db') =>
      db' = db
      ∧ (amount ≤ 0 → e = AmountNotPositive)
      ∧ (0 < amount → Customer.creditBalance c < amount → e = ExceedsCreditBalance)
  end.
Proof.
  unfold processCreditPayment.
  destruct (amount <=? 0) eqn:Hpos.
  { apply Z.leb_le in Hpos. simpl. split; [done|]. split; [done|lia]. }
  apply Z.leb_gt in Hpos.
  destruct (Customer.creditBalance c <? amount) eqn:Hbal.
  { apply Z.ltb_lt in Hbal. simpl. split; [done|]. split; [lia|done]. }
  apply Z.ltb_ge in Hbal. unfold mbind, M_bind.
  destruct (saveCustomer _ _ db) as [[[]|e] db'] eqn:Hsave.
  - apply saveCustomer_ok in Hsave as [Hb ->]. simpl in *.
    rewrite lookup_insert_eq. repeat split; try done; lia.
  - apply saveCustomer_throw in Hsave as ->. split; [done|]. split; lia.
Qed.

(** [updateCreditBalance] of the Customer model never stores a balance
    outside [0, creditLimit]: the new balance is the old one plus or minus
    the amount, a negative result and an addition above the limit are
    refused by name, and whatever is refused writes nothing. *)
Theorem updateCreditBalance_spec (id : nat) (c : Customer.t) (amount : Z) (add : bool)
    (db : DB) :
  let newBalance :=
    if add then Customer.creditBalance c + amount else Customer.creditBalance c - amount in
  match updateCreditBalance id c amount add db with
  | (Ok c', db') =>
      Customer.creditBalance c' = newBalance
      ∧ 0 ≤ newBalance ≤ Customer.creditLimit c
      ∧ customers db' !! id = Some c'
  | (Throw e, db') =>
      db' = db
      ∧ (newBalance < 0 → e = BalanceCannotBeNegative)
      ∧ (0 ≤ newBalance → add = true → Customer.creditLimit c < newBalance →
         e = CreditLimitExceeded)
  end.
Proof.
  cbv zeta. unfold updateCreditBalance.
  set (newBalance := if add then _ else _).
  destruct (newBalance <? 0) eqn:Hneg.
  { apply Z.ltb_lt in Hneg. simpl. split; [done|]. split; [done|lia]. }
  apply Z.ltb_ge in Hneg.
  destruct (add && (Customer.creditLimit c <? newBalance)) eqn:Hadd.
  { simpl. split; [done|]. split; [lia|done]. }
  unfold mbind, M_bind.
  destruct (saveCustomer _ _ db) as [[[]|e] db'] eqn:Hsave.
  - apply saveCustomer_ok in Hsave as [Hb ->]. simpl in *.
    rewrite lookup_insert_eq. done.
  - apply saveCustomer_throw in Hsave as ->. split; [done|]. split; [lia|].
    intros _ -> Hlt. apply Z.ltb_lt in Hlt. rewrite Hlt in Hadd. done.
Qed.

(** ** Payments recorded on the customer *)

Lemma DB_eta (db : DB) : mkDB (customers db) (sales db) (payments db) = db.
Proof. by destruct db. Qed.


(** [POST /customers/:id/payments]: an accepted payment is positive and
    within the balance, lowers the stored balance by the amount, adds one
    completed entry to the history, writes no Payment document and leaves
    the balance within [0, creditLimit]; a refused one is answered 400 and
    changes nothing. *)
Theorem postCustomerPayment_spec (id : nat) (body : CustomerPaymentBody.t) (db : DB) :
  let amount := CustomerPaymentBody.amount body in
  match postCustomerPayment id body db with
  | (db', Success c') =>
      ∃ c, customers db !! id = Some c
        ∧ 0 < amount ≤ Customer.creditBalance c
        ∧ c' = Customer.push_paymentHistory
                 (HistoryEntry.mk amount (CustomerPaymentBody.method body) e_completed
                                  (CustomerPaymentBody.saleId body))
                 (Customer.set_creditBalance (Customer.creditBalance c - amount) c)
        ∧ customers db' = <[id := c']> (customers db)
        ∧ payments db' = payments db
        ∧ 0 ≤ Customer.creditBalance c' ≤ Customer.creditLimit c'
  | (db', Failure code _) => db' = db ∧ code = 400
  end.
Proof.
  cbv zeta. unfold postCustomerPayment, in_transaction.
  unfold mbind at 1, M_bind at 1. rewrite findCustomer_run.
  destruct (customers db !! id) as [c|] eqn:Hc; [|done].
  unfold mbind at 1, M_bind at 1. rewrite require_Some.
  destruct (CustomerPaymentBody.amount body <=? 0) eqn:Hpos; [done|].
  apply Z.leb_gt in Hpos.
  destruct (Customer.creditBalance c <? _) eqn:Hbal; [done|]. apply Z.ltb_ge in Hbal.
  set (c2 := Customer.push_paymentHistory _ _).
  unfold mbind at 1, M_bind at 1.
  match goal with |- context [match ?step db with _ => _ end] =>
    assert (Hstep : ∃ o m, step db = (o, mkDB (customers db) m (payments db)))
  end.
  { destruct (CustomerPaymentBody.saleId body) as [sid|]; [|by eexists _, (sales db); rewrite DB_eta].
    unfold mbind, M_bind. rewrite findSale_run.
    destruct (sales db !! sid) as [sale|]; [|by eexists _, (sales db); rewrite DB_eta].
    destruct (_ <=? _); [|by eexists _, (sales db); rewrite DB_eta].
    unfold saveSale. destruct (validate_sale _); [|by eexists _, (sales db); rewrite DB_eta].
    unfold mbind, M_bind, get_db, put_db. by eexists _, _. }
  destruct Hstep as (o & m & ->). destruct o as [[]|e]; [|done].
  unfold mbind, M_bind.
  destruct (saveCustomer id c2 _) as [[[]|e] db'] eqn:Hrun; [|done].
  apply saveCustomer_ok in Hrun as [Hb ->].
  subst c2. simpl in *. exists c. repeat split; try done; lia.
Qed.



(** ** The status override *)

Lemma patchStatus_completed_credit_witness :
  Customer.creditBalance
    <$> customers (patchStatus 7 completed (Sample.ledger 100 0)).1 !! 1%nat
  = Some 0.
Proof.
  rewrite (patchStatus_completed_credit 7 (Sample.sale 100 0 10) (Sample.customer 100)
             (Sample.ledger 100 0)).
  - reflexivity.
  - reflexivity.
  - discriminate.
  - reflexivity.
  - reflexivity.
  - reflexivity.
Defined.

(** [PATCH /sales/:id/status] has no guard on the transition: a stored
    sale is moved to any status other than its own, also out of
    completed or cancelled; unless a credit sale is moved to completed,
    no customer is touched (re-opening a completed credit sale does not
    give the balance back). *)
Theorem patchStatus_any_transition (id : nat) (s : Sale.t) (status : SaleStatus) (db : DB) :
  sales db !! id = Some s →
  Sale.status s ≠ status →
  validate_sale s = true →
  status ≠ completed ∨ Sale.paymentType s ≠ credit →
  patchStatus id status db
  = (mkDB (customers db) (<[id := Sale.set_status status s]> (sales db)) (payments db),
     Success (Sale.set_status status s)).
Proof.
  intros Hs Hst Hv Hnot.
  unfold patchStatus, in_transaction, mbind, M_bind.
  rewrite findSale_run, Hs. cbn [require]. unfold mret at 1, M_ret at 1.
  rewrite bool_decide_eq_false_2 by done.
  assert (bool_decide (status = completed) && bool_decide (Sale.paymentType s = credit)
          = false) as ->.
  { apply andb_false_iff. destruct Hnot; [left|right]; by apply bool_decide_eq_false_2. }
  unfold mret at 1, M_ret at 1.
  rewrite saveSale_accepts by done. reflexivity.
Qed.

Lemma patchStatus_any_transition_witness :
  Sale.status <$> sales (patchStatus 7 pending Sample2.settled).1 !! 7%nat = Some pending
  ∧ customers (patchStatus 7 pending Sample2.settled).1 = customers Sample2.settled.
Proof.
  rewrite (patchStatus_any_transition 7 (Sale.set_status completed (Sample.sale 100 100 10))
             pending Sample2.settled).
  - split; reflexivity.
  - reflexivity.
  - discriminate.
  - reflexivity.
  - left. discriminate.
Defined.

(** ** The reminder job, once more *)

(** A sale at least one full day overdue is due before now. *)
Lemma overdue_day_dueBefore (now dueDate : Z) :
  1 ≤ differenceInDays now dueDate → dueDate < now.
Proof.
  intros H.
  assert (0 < differenceInDays now dueDate) as Hpos by lia.
  pose proof (proj1 (differenceInDays_pos now dueDate _ Hpos) eq_refl) as Hwin.
  unfold MS_PER_DAY in Hwin. lia.
Qed.

(** Where a reminder that was sent comes from. *)
Lemma processUpcomingPayments_elem (now : Z) (db : DB) (c id : nat) (d : Z) :
  PaymentReminder c id d ∈ processUpcomingPayments now db →
  ∃ s dueDate, sales db !! id = Some s ∧ Sale.customer s = c
    ∧ is_pending_credit s = true
    ∧ Sale.creditDetails_dueDate s = Some dueDate
    ∧ d = differenceInDays dueDate now ∧ isReminderDay d = true.
Proof.
  unfold processUpcomingPayments. rewrite upcomingLoop_elem.
  intros (s & due & Hin%evaluated_elem & Hrest).
  apply upcomingQuery_elem in Hin as (Hs & Hst & Hpt & _).
  exists s, due. split; [done|]. rewrite is_pending_credit_spec. tauto.
Qed.

(** Where an overdue notice that was sent comes from. *)
Lemma processOverduePayments_elem (now : Z) (db : DB) (c id : nat) (d : Z) :
  OverdueNotification c id d ∈ processOverduePayments now db →
  ∃ s dueDate, sales db !! id = Some s ∧ Sale.customer s = c
    ∧ is_pending_credit s = true
    ∧ Sale.creditDetails_dueDate s = Some dueDate ∧ dueDate < now
    ∧ d = differenceInDays now dueDate ∧ isOverdueDay d = true.
Proof.
  unfold processOverduePayments. rewrite overdueLoop_elem.
  intros (s & due & Hin%evaluated_elem & Hc & Hd & Hrest).
  apply overdueQuery_elem in Hin as (Hs & Hst & Hpt & due' & Hd' & Hlt).
  rewrite Hd in Hd'. injection Hd' as <-.
  exists s, due. split; [done|]. rewrite is_pending_credit_spec. tauto.
Qed.

(** A sale that gets an upcoming reminder in a sweep is not overdue for
    [isOverdue] at that instant and gets no overdue notice in the same
    sweep. *)
Theorem reminder_excludes_overdue (now : Z) (db : DB) (c id : nat) (d : Z) :
  PaymentReminder c id d ∈ processUpcomingPayments now db →
  (∃ s, sales db !! id = Some s ∧ isOverdue now s = false)
  ∧ ∀ c' d', OverdueNotification c' id d' ∉ processOverduePayments now db.
Proof.
  intros (s & due & Hs & Hc & Hp & Hd & -> & Hday)%processUpcomingPayments_elem.
  apply isReminderDay_spec in Hday.
  assert (Hlt : now < due).
  { destruct (decide (now < due)) as [|Hge]; [done|].
    assert (1 ≤ differenceInDays due now) as H1 by lia.
    apply overdue_day_dueBefore in H1. lia. }
  split.
  - exists s. split; [done|]. unfold isOverdue. rewrite Hd.
    destruct (_ || _); [done|]. apply Z.ltb_ge. lia.
  - intros c' d' (s' & due' & Hs' & _ & _ & Hd' & Hlt' & _)%processOverduePayments_elem.
    rewrite Hs in Hs'. injection Hs' as <-. rewrite Hd in Hd'. injection Hd' as <-. lia.
Qed.

Lemma reminder_excludes_overdue_witness :
  PaymentReminder 1 7 7 ∈ processUpcomingPayments 0 (Sample3.due (7 * MS_PER_DAY))
  ∧ ∀ c' d',
      OverdueNotification c' 7 d' ∉ processOverduePayments 0 (Sample3.due (7 * MS_PER_DAY)).
Proof.
  assert (H : PaymentReminder 1 7 7
              ∈ processUpcomingPayments 0 (Sample3.due (7 * MS_PER_DAY)))
    by (vm_compute; left).
  split; [exact H|].
  exact (proj2 (reminder_excludes_overdue 0 (Sample3.due (7 * MS_PER_DAY)) 1 7 7 H)).
Defined.

(** A sale that gets an overdue notice in a sweep is overdue for
    [isOverdue] at that instant. *)
Theorem overdue_notice_implies_isOverdue (now : Z) (db : DB) (c id : nat) (d : Z) :
  OverdueNotification c id d ∈ processOverduePayments now db →
  ∃ s, sales db !! id = Some s ∧ isOverdue now s = true.
Proof.
  intros (s & due & Hs & _ & Hp & Hd & Hlt & _)%processOverduePayments_elem.
  exists s. split; [done|].
  apply is_pending_credit_spec in Hp as [Hst Hpt].
  unfold isOverdue. rewrite Hd, Hst, Hpt. simpl. by apply Z.ltb_lt.
Qed.

Lemma overdue_notice_implies_isOverdue_witness :
  ∃ s, sales (Sample3.due 0) !! 7%nat = Some s ∧ isOverdue (7 * MS_PER_DAY) s = true.
Proof.
  apply (overdue_notice_implies_isOverdue (7 * MS_PER_DAY) (Sample3.due 0) 1 7 7).
  vm_compute. left.
Defined.

(** ** Changing the limit, creating a customer *)

Lemma existsb_false_elem {A} (f : A → bool) (l : list A) (x : A) :
  existsb f l = false → x ∈ l → f x = false.
Proof.
  intros Hf Hin. destruct (f x) eqn:Hx; [|done].
  assert (existsb f l = true); [|congruence].
  apply existsb_exists. exists x. split; [by apply list_elem_of_In|done].
Qed.

(** [PUT /customers/:id] never leaves an account with a limit below its
    balance: a new limit under the balance is refused as such, and an
    accepted change stores the new limit with the balance untouched and
    [0 ≤ creditBalance ≤ creditLimit], under the trimmed code, which is
    not empty and which no other customer has.  Whatever is refused
    changes nothing. *)
Theorem putCustomer_spec (trim : string → string) (id : nat) (body : CustomerBody.t)
    (r : Registry) :
  match putCustomer trim id body r with
  | (r', inr c') =>
      ∃ c code l,
        customers (ledger r) !! id = Some c
        ∧ CustomerBody.code body = Some code
        ∧ CustomerBody.creditLimit body = Some l
        ∧ c' = Customer.set_creditLimit l c
        ∧ 0 ≤ Customer.creditBalance c ≤ l
        ∧ customers (ledger r') = <[id := c']> (customers (ledger r))
        ∧ sales (ledger r') = sales (ledger r)
        ∧ payments (ledger r') = payments (ledger r)
        ∧ codes r' = <[id := trim code]> (codes r)
        ∧ trim code ≠ EmptyString
        ∧ ∀ j, j ≠ id → codes r !! j ≠ Some (trim code)
  | (r', inl e) =>
      r' = r
      ∧ ∀ c l, customers (ledger r) !! id = Some c →
               CustomerBody.creditLimit body = Some l →
               l < Customer.creditBalance c →
               e = LimitBelowBalance
  end.
Proof.
  unfold putCustomer.
  destruct (customers (ledger r) !! id) as [c|] eqn:Hc; [|done].
  destruct (limitBelow _ _) eqn:Hbelow.
  { split; [done|]. done. }
  assert (Hnot : ∀ c0 l, Some c = Some c0 → CustomerBody.creditLimit body = Some l →
                         l < Customer.creditBalance c0 → False).
  { intros c0 l [= <-] Hl Hlt. unfold limitBelow in Hbelow. rewrite Hl in Hbelow.
    apply Z.ltb_ge in Hbelow. lia. }
  destruct (codeUsedByOther _ _ _) eqn:Hused; [split; [done|]; intros; exfalso; eauto|].
  destruct (requiredString trim (CustomerBody.name body)) as [name|];
    [|split; [done|]; intros; exfalso; eauto].
  destruct (requiredString trim (CustomerBody.code body)) as [code'|] eqn:Hreq;
    [|split; [done|]; intros; exfalso; eauto].
  destruct (CustomerBody.emailAccepted body);
    [|split; [done|]; intros; exfalso; eauto].
  destruct (CustomerBody.creditLimit body) as [l|];
    [|split; [done|]; intros; exfalso; eauto].
  destruct (saveCustomer id _ (ledger r)) as [[[]|e] db'] eqn:Hsave;
    [|split; [done|]; intros; exfalso; eauto].
  apply saveCustomer_ok in Hsave as [Hb ->]. simpl in Hb.
  unfold requiredString in Hreq.
  destruct (CustomerBody.code body) as [code|]; [|done].
  destruct (bool_decide (trim code = EmptyString)) eqn:Hempty; [done|].
  apply bool_decide_eq_false in Hempty. injection Hreq as <-.
  exists c, code, l. do 10 (split; [done|]).
  intros j Hj Hlook. unfold codeUsedByOther in Hused.
  apply (existsb_false_elem _ _ (j, trim code)) in Hused; [|by apply elem_of_map_to_list].
  simpl in Hused. apply bool_decide_eq_false in Hused. by apply Hused.
Qed.

(** [POST /customers]: a new customer is stored under an [_id] no customer
    had, with balance 0, no history and status active, so that a credit
    purchase is allowed exactly up to the limit; the limit is not
    negative, the trimmed code is not empty and was used by no customer,
    and no stored customer is changed.  Whatever is refused changes
    nothing. *)
Theorem postCustomer_spec (trim : string → string) (body : CustomerBody.t) (r : Registry) :
  match postCustomer trim body r with
  | (r', inr (id, c)) =>
      customers (ledger r) !! id = None
      ∧ c = Customer.mk (default 0 (CustomerBody.creditLimit body)) 0 [] active
      ∧ 0 ≤ Customer.creditLimit c
      ∧ (∀ amount, Customer.canMakeCreditPurchase c amount = true
                   ↔ amount ≤ Customer.creditLimit c)
      ∧ customers (ledger r') = <[id := c]> (customers (ledger r))
      ∧ (∀ j, j ≠ id → customers (ledger r') !! j = customers (ledger r) !! j)
      ∧ (∃ code, CustomerBody.code body = Some code
                 ∧ trim code ≠ EmptyString
                 ∧ codes r' = <[id := trim code]> (codes r)
                 ∧ ∀ j, codes r !! j ≠ Some (trim code))
  | (r', inl _) => r' = r
  end.
Proof.
  unfold postCustomer.
  destruct (codeUsed _ _) eqn:Hused; [done|].
  destruct (requiredString trim (CustomerBody.name body)) as [name|]; [|done].
  destruct (requiredString trim (CustomerBody.code body)) as [code'|] eqn:Hreq; [|done].
  destruct (CustomerBody.emailAccepted body); [|done].
  set (id := fresh _).
  destruct (saveCustomer id _ (ledger r)) as [[[]|e] db'] eqn:Hsave; [|done].
  apply saveCustomer_ok in Hsave as [Hb ->]. simpl in Hb. simpl.
  assert (Hfresh : id ∉ dom (customers (ledger r)) ∪ dom (codes r)) by apply is_fresh.
  split; [apply not_elem_of_dom; intros H; apply Hfresh, elem_of_union; by left|].
  split; [done|]. split; [lia|]. split.
  { intros amount. unfold Customer.canMakeCreditPurchase. simpl.
    rewrite Z.leb_le. lia. }
  split; [done|]. split; [intros j Hj; by apply lookup_insert_ne|].
  unfold requiredString in Hreq.
  destruct (CustomerBody.code body) as [code|]; [|done].
  destruct (bool_decide (trim code = EmptyString)) eqn:Hempty; [done|].
  apply bool_decide_eq_false in Hempty. injection Hreq as <-.
  exists code. split; [done|]. split; [done|]. split; [done|].
  intros j Hj. unfold codeUsed in Hused.
  apply (existsb_false_elem _ _ (j, trim code)) in Hused; [|by apply elem_of_map_to_list].
  simpl in Hused. by apply bool_decide_eq_false in Hused.
Qed.

(** ** The notifications of a customer *)

Lemma is_pending_credit_of_spec (customerId : nat) (s : Sale.t) :
  is_pending_credit_of customerId s = true
  ↔ Sale.customer s = customerId ∧ Sale.status s = pending ∧ Sale.paymentType s = credit.
Proof.
  unfold is_pending_credit_of. rewrite !andb_true_iff, !bool_decide_eq_true. tauto.
Qed.

Lemma div_lt_iff (D x q : Z) : 0 < D → x `div` D < q ↔ x < D * q.
Proof.
  intros HD. split.
  - intros Hlt. destruct (decide (x < D * q)) as [|Hge]; [done|].
    assert (q ≤ x `div` D) by (apply Z.div_le_lower_bound; lia). lia.
  - intros Hlt. by apply Z.div_lt_upper_bound.
Qed.

Lemma floorDaysUntilDue_overdue (dueDate now : Z) :
  floorDaysUntilDue dueDate now < 0 ↔ dueDate < now.
Proof. unfold floorDaysUntilDue, MS_PER_DAY. rewrite div_lt_iff by lia. lia. Qed.

Lemma floorDaysUntilDue_upcoming (dueDate now : Z) :
  floorDaysUntilDue dueDate now ≤ 7 ↔ dueDate < now + 8 * MS_PER_DAY.
Proof.
  unfold floorDaysUntilDue, MS_PER_DAY.
  assert (∀ z, z ≤ 7 ↔ z < 8) as -> by (intros; lia).
  rewrite div_lt_iff by lia. lia.
Qed.

(** What the walk over the sales adds about one sale. *)
Lemma saleNotification_elem (now : Z) (l : list (nat * Sale.t)) (n : CustomerNotification) :
  n ∈ flat_map (saleNotification now) l ↔
  ∃ id s dueDate,
    (id, s) ∈ l ∧ Sale.creditDetails_dueDate s = Some dueDate
    ∧ ((dueDate < now
        ∧ n = N_overdue (- floorDaysUntilDue dueDate now)
                None dueDate id)
       ∨ (now ≤ dueDate < now + 8 * MS_PER_DAY
          ∧ n = N_upcoming (floorDaysUntilDue dueDate now)
                  None dueDate id)).
Proof.
  rewrite list_elem_of_In, in_flat_map. split.
  - intros ([id s] & Hin & Hn). apply list_elem_of_In in Hin.
    unfold saleNotification in Hn. simpl in Hn.
    destruct (Sale.creditDetails_dueDate s) as [due|] eqn:Hdue; [|done].
    exists id, s, due. split; [done|]. split; [done|].
    destruct (floorDaysUntilDue due now <? 0) eqn:Hneg.
    + apply Z.ltb_lt in Hneg. destruct Hn as [<-|[]]. left.
      split; [by apply floorDaysUntilDue_overdue|]. f_equal. lia.
    + apply Z.ltb_ge in Hneg.
      destruct (floorDaysUntilDue due now <=? 7) eqn:Hup; [|done].
      apply Z.leb_le in Hup. destruct Hn as [<-|[]]. right. split; [|done].
      apply floorDaysUntilDue_upcoming in Hup.
      destruct (decide (due < now)) as [Hlt|]; [|lia].
      apply floorDaysUntilDue_overdue in Hlt. lia.
  - intros (id & s & due & Hin & Hdue & Hcase). exists (id, s).
    split; [by apply list_elem_of_In|].
    unfold saleNotification. simpl. rewrite Hdue.
    destruct Hcase as [[Hlt ->]|[[Hge Hlt] ->]].
    + apply floorDaysUntilDue_overdue in Hlt as Hneg.
      apply Z.ltb_lt in Hneg as Hb. rewrite Hb. left. f_equal. lia.
    + assert (¬ floorDaysUntilDue due now < 0) as Hneg
        by (rewrite floorDaysUntilDue_overdue; lia).
      apply Z.ltb_nlt in Hneg. rewrite Hneg.
      apply floorDaysUntilDue_upcoming in Hlt. apply Z.leb_le in Hlt. rewrite Hlt.
      by left.
Qed.

(** What the notification route lists for a customer. *)
Lemma getNotifications_listing (now : Z) (customerId : nat) (db : DB) :
  match customers db !! customerId with
  | None => getNotifications now customerId db = Failure 404 CustomerNotFound
  | Some _ =>
      ∃ l, getNotifications now customerId db = Success l
        ∧ (∀ days amount dueDate saleId,
             N_overdue days amount dueDate saleId ∈ l
             ↔ ∃ s, sales db !! saleId = Some s
                 ∧ is_pending_credit_of customerId s = true
                 ∧ Sale.creditDetails_dueDate s = Some dueDate
                 ∧ dueDate < now
                 ∧ days = - floorDaysUntilDue dueDate now
                 ∧ amount = None)
        ∧ (∀ days amount dueDate saleId,
             N_upcoming days amount dueDate saleId ∈ l
             ↔ ∃ s, sales db !! saleId = Some s
                 ∧ is_pending_credit_of customerId s = true
                 ∧ Sale.creditDetails_dueDate s = Some dueDate
                 ∧ now ≤ dueDate < now + 8 * MS_PER_DAY
                 ∧ days = floorDaysUntilDue dueDate now
                 ∧ amount = None)
  end.
Proof.
  unfold getNotifications.
  destruct (customers db !! customerId) as [customer|]; [|done].
  eexists. split; [reflexivity|].
  assert (Hw : ∀ n, n ∈ utilizationWarning customer → ∃ p b l, n = N_credit_warning p b l).
  { intros n. unfold utilizationWarning. destruct (js_ge _ _).
    - intros ->%list_elem_of_singleton. eauto.
    - by intros ?%elem_of_nil. }
  assert (Hin : ∀ id s, (id, s) ∈ merge_sort dueDate_le
                  (filter (λ p, is_pending_credit_of customerId p.2 = true)
                     (map_to_list (sales db)))
                ↔ sales db !! id = Some s ∧ is_pending_credit_of customerId s = true).
  { intros id s. rewrite merge_sort_Permutation, list_elem_of_filter, elem_of_map_to_list.
    simpl. tauto. }
  split.
  - intros days amount due saleId. rewrite elem_of_app, saleNotification_elem. split.
    + intros [(id & s & due' & Hs & Hdue & [[Hlt Heq]|[_ Heq]])|Hu].
      * injection Heq as -> -> -> ->. apply Hin in Hs as [Hs Hp]. exists s. done.
      * done.
      * apply Hw in Hu as (? & ? & ? & ?). done.
    + intros (s & Hs & Hp & Hdue & Hlt & -> & ->). left. exists saleId, s, due.
      split; [by apply Hin|]. split; [done|]. by left.
  - intros days amount due saleId. rewrite elem_of_app, saleNotification_elem. split.
    + intros [(id & s & due' & Hs & Hdue & [[_ Heq]|[Hr Heq]])|Hu].
      * done.
      * injection Heq as -> -> -> ->. apply Hin in Hs as [Hs Hp]. exists s. done.
      * apply Hw in Hu as (? & ? & ? & ?). done.
    + intros (s & Hs & Hp & Hdue & Hr & -> & ->). left. exists saleId, s, due.
      split; [by apply Hin|]. split; [done|]. by right.
Qed.

(** [GET /notifications/customer/:id]: for a stored customer each pending
    credit sale with a due date is listed as overdue exactly when it is due
    before now, and as upcoming exactly when it is due within the next
    eight days.  The amount shown is NaN on every entry: it is
    [sale.totalAmount - sale.paidAmount], and no sale has a [paidAmount].
    For an unknown customer the answer is 404. *)
Theorem getNotifications_spec (now : Z) (customerId : nat) (db : DB) :
  match customers db !! customerId with
  | None => getNotifications now customerId db = Failure 404 CustomerNotFound
  | Some _ =>
      ∃ l, getNotifications now customerId db = Success l
        ∧ (∀ days amount dueDate saleId,
             N_overdue days amount dueDate saleId ∈ l
             ↔ ∃ s, sales db !! saleId = Some s
                 ∧ is_pending_credit_of customerId s = true
                 ∧ Sale.creditDetails_dueDate s = Some dueDate
                 ∧ dueDate < now
                 ∧ days = - floorDaysUntilDue dueDate now
                 ∧ amount = None)
        ∧ (∀ days amount dueDate saleId,
             N_upcoming days amount dueDate saleId ∈ l
             ↔ ∃ s, sales db !! saleId = Some s
                 ∧ is_pending_credit_of customerId s = true
                 ∧ Sale.creditDetails_dueDate s = Some dueDate
                 ∧ now ≤ dueDate < now + 8 * MS_PER_DAY
                 ∧ days = floorDaysUntilDue dueDate now
                 ∧ amount = None)
  end.
Proof. exact (getNotifications_listing now customerId db). Qed.

(** The daily job and the notification route agree: a sale the job
    reminds of at some instant is listed as upcoming for its customer at
    that instant, with the same number of days; a sale the job sends an
    overdue notice for is listed as overdue, with the same number of days
    or one more (the route counts a started day). *)
Theorem job_notifications_are_listed (now : Z) (db : DB) (c : nat) (customer : Customer.t) :
  customers db !! c = Some customer →
  ∃ l, getNotifications now c db = Success l
    ∧ (∀ id d, PaymentReminder c id d ∈ processUpcomingPayments now db →
               ∃ amount dueDate, N_upcoming d amount dueDate id ∈ l)
    ∧ (∀ id d, OverdueNotification c id d ∈ processOverduePayments now db →
               ∃ days amount dueDate,
                 N_overdue days amount dueDate id ∈ l ∧ d ≤ days ≤ d + 1).
Proof.
  intros Hc.
  pose proof (getNotifications_listing now c db) as Hspec. rewrite Hc in Hspec.
  destruct Hspec as (l & Hl & Hover & Hup). exists l. split; [done|]. split.
  - intros id d Hrem.
    apply processUpcomingPayments_elem in Hrem
      as (s & due & Hs & Hcust & Hp & Hdue & -> & Hday).
    apply isReminderDay_spec in Hday. apply is_pending_credit_spec in Hp as [Hst Hpt].
    assert (Hq : differenceInDays due now = floorDaysUntilDue due now ∧ now ≤ due).
    { unfold differenceInDays, floorDaysUntilDue in *.
      destruct (decide (now ≤ due)) as [Hle|Hgt].
      - split; [|done]. apply Z.quot_div_nonneg; unfold MS_PER_DAY; lia.
      - exfalso. assert (due < now) as Hlt by lia.
        assert (Z.quot (due - now) MS_PER_DAY ≤ 0); [|lia].
        replace (due - now) with (- (now - due)) by lia.
        rewrite Z.quot_opp_l by (unfold MS_PER_DAY; lia).
        assert (0 ≤ Z.quot (now - due) MS_PER_DAY)
          by (apply Z.quot_pos; unfold MS_PER_DAY; lia).
        lia. }
    destruct Hq as [Hq Hle]. rewrite Hq in *.
    exists None, due. apply Hup. exists s.
    split; [done|]. split; [apply is_pending_credit_of_spec; done|].
    split; [done|]. split; [|done]. split; [done|].
    apply floorDaysUntilDue_upcoming. lia.
  - intros id d Hov.
    apply processOverduePayments_elem in Hov
      as (s & due & Hs & Hcust & Hp & Hdue & Hlt & -> & Hday).
    apply is_pending_credit_spec in Hp as [Hst Hpt].
    exists (- floorDaysUntilDue due now), None, due.
    split.
    + apply Hover. exists s. split; [done|].
      split; [apply is_pending_credit_of_spec; done|]. done.
    + unfold differenceInDays, floorDaysUntilDue, MS_PER_DAY.
      rewrite Z.quot_div_nonneg by lia.
      pose proof (Z.div_mod (now - due) 86400000 ltac:(lia)) as H1.
      pose proof (Z.mod_pos_bound (now - due) 86400000 ltac:(lia)) as H2.
      pose proof (Z.div_mod (due - now) 86400000 ltac:(lia)) as H3.
      pose proof (Z.mod_pos_bound (due - now) 86400000 ltac:(lia)) as H4.
      lia.
Qed.

Lemma job_notifications_are_listed_witness :
  ∃ l, getNotifications 0 1 (Sample3.due (7 * MS_PER_DAY)) = Success l
       ∧ ∃ amount dueDate, N_upcoming 7 amount dueDate 7 ∈ l.
Proof.
  destruct (job_notifications_are_listed 0 (Sample3.due (7 * MS_PER_DAY)) 1
              (Sample.customer 100) eq_refl) as (l & Hl & Hup & _).
  exists l. split; [exact Hl|]. apply Hup. vm_compute. left.
Defined.

(** ** The aging report *)

Lemma bucket_push (b b' : AgingBucket) (e : AgingEntry.t) (a : Aging.t) :
  Aging.bucket b (Aging.push b' e a)
  = if decide (b = b') then Aging.bucket b a ++ [e] else Aging.bucket b a.
Proof. by destruct b, b'. Qed.

Lemma agingLoop_ok (now : Z) (db : DB) (l : list (nat * Sale.t)) (aging aging' : Aging.t) :
  agingLoop now db l aging = Ok aging' →
  ∀ b e, e ∈ Aging.bucket b aging'
         ↔ e ∈ Aging.bucket b aging
           ∨ ∃ p, p ∈ l ∧ e = agingEntry now p
                  ∧ b = agingBucket (agingDays now (Sale.creditDetails_dueDate p.2)).
Proof.
  revert aging. induction l as [|p l IH]; intros aging; simpl.
  - intros [= <-] b e. split; [by left|]. intros [?|(p & ?%elem_of_nil & _)]; done.
  - destruct (customers db !! Sale.customer p.2); [|done].
    intros Hrun b e. rewrite (IH _ Hrun b e), bucket_push. split.
    + intros [Hin|(q & Hq & Heq)].
      * destruct (decide _) as [->|]; [|by left].
        apply elem_of_app in Hin as [?|Heq]; [by left|].
        apply list_elem_of_singleton in Heq as ->.
        right. exists p. split; [left|done].
      * right. exists q. split; [by right|done].
    + intros [Hin|(q & [->|Hq]%elem_of_cons & -> & ->)].
      * left. destruct (decide _); [apply elem_of_app|]; auto.
      * left. rewrite decide_True by done. apply elem_of_app. right.
        by apply list_elem_of_singleton.
      * right. by exists q.
Qed.

Lemma agingLoop_throw (now : Z) (db : DB) (l : list (nat * Sale.t)) (aging : Aging.t)
    (e : Err) :
  agingLoop now db l aging = Throw e →
  e = TypeError_null ∧ ∃ p, p ∈ l ∧ customers db !! Sale.customer p.2 = None.
Proof.
  revert aging. induction l as [|p l IH]; intros aging; simpl; [done|].
  destruct (customers db !! Sale.customer p.2) eqn:Hc.
  - intros (-> & q & Hq & Hnone)%IH. split; [done|]. exists q. split; [by right|done].
  - intros [= <-]. split; [done|]. exists p. split; [left|done].
Qed.

(** [generateAgingReport]: the entries of a bucket are those of the
    pending credit sales the filter lets through whose day count falls
    in that bucket, so that each such sale is listed in the bucket of
    its day count and in no other; the amount of every entry is NaN
    ([sale.totalAmount - sale.paidAmount], and no sale has a
    [paidAmount]); the report fails as a whole (reading the name of a
    customer that is gone) only when one of these sales has no stored
    customer. *)
Theorem generateAgingReport_spec (now : Z) (f : ReportFilter.t) (db : DB) :
  match generateAgingReport now f db with
  | Ok aging =>
      (∀ b e, e ∈ Aging.bucket b aging
              ↔ ∃ id s, sales db !! id = Some s
                  ∧ ReportFilter.matches f s = true
                  ∧ Sale.status s = pending ∧ Sale.paymentType s = credit
                  ∧ e = agingEntry now (id, s)
                  ∧ b = agingBucket (agingDays now (Sale.creditDetails_dueDate s)))
      ∧ (∀ b e, e ∈ Aging.bucket b aging → AgingEntry.amount e = None)
  | Throw e =>
      e = TypeError_null
      ∧ ∃ id s, sales db !! id = Some s
          ∧ ReportFilter.matches f s = true
          ∧ Sale.status s = pending ∧ Sale.paymentType s = credit
          ∧ customers db !! Sale.customer s = None
  end.
Proof.
  unfold generateAgingReport.
  destruct (agingLoop _ _ _ _) as [aging|e] eqn:Hrun.
  - assert (Hentries : ∀ b e, e ∈ Aging.bucket b aging
              ↔ ∃ id s, sales db !! id = Some s
                  ∧ ReportFilter.matches f s = true
                  ∧ Sale.status s = pending ∧ Sale.paymentType s = credit
                  ∧ e = agingEntry now (id, s)
                  ∧ b = agingBucket (agingDays now (Sale.creditDetails_dueDate s)));
      [|split; [exact Hentries|];
        intros b e (id & s & _ & _ & _ & _ & -> & _)%Hentries; reflexivity].
    intros b e. rewrite (agingLoop_ok _ _ _ _ _ Hrun b e). split.
    + intros [Hin|([id s] & Hp & -> & ->)]; [by destruct b; apply elem_of_nil in Hin|].
      apply list_elem_of_filter in Hp as [[Hm Hpc] Hin]. simpl in *.
      apply elem_of_map_to_list in Hin. apply is_pending_credit_spec in Hpc as [??].
      exists id, s. done.
    + intros (id & s & Hs & Hm & Hst & Hpt & -> & ->). right. exists (id, s).
      split; [|done]. apply list_elem_of_filter. simpl.
      rewrite is_pending_credit_spec, elem_of_map_to_list. done.
  - apply agingLoop_throw in Hrun as (-> & [id s] & Hp & Hnone). split; [done|].
    apply list_elem_of_filter in Hp as [[Hm Hpc] Hin]. simpl in *.
    apply elem_of_map_to_list in Hin. apply is_pending_credit_spec in Hpc as [??].
    exists id, s. done.
Qed.

(** The buckets of the aging report by instants: a sale stays current
    until one full day after its due date, then spends thirty days in
    each of the next three buckets; from the ninety-first day on, and
    also when it has no due date at all, it is listed as over 90 days. *)
Theorem agingBucket_ranges (now : Z) (dueDate : option Z) :
  agingBucket (agingDays now dueDate)
  = match dueDate with
    | None => b_over90days
    | Some d =>
        if now - d <? MS_PER_DAY then b_current
        else if now - d <? 31 * MS_PER_DAY then b_30days
        else if now - d <? 61 * MS_PER_DAY then b_60days
        else if now - d <? 91 * MS_PER_DAY then b_90days
        else b_over90days
    end.
Proof.
  destruct dueDate as [d|]; [|done]. unfold agingDays, agingBucket.
  assert (Hiff : ∀ q, ((now - d) `div` MS_PER_DAY <=? q) = (now - d <? (q + 1) * MS_PER_DAY)).
  { intros q. apply eq_true_iff_eq. rewrite Z.leb_le, Z.ltb_lt.
    assert (∀ z, z ≤ q ↔ z < q + 1) as -> by (intros; lia).
    rewrite div_lt_iff by (unfold MS_PER_DAY; lia). lia. }
  rewrite !Hiff. reflexivity.
Qed.

(** ** Razorpay payments, once more *)

(** [POST /razorpay/verify-payment] on any request: it never answers with
    an overpayment error; with an invalid signature it writes nothing;
    and it answers success only for a payment that names a customer
    that is not stored, having then written the Payment document and left
    every customer as it was (for a stored customer the answer is always
    a failure). *)
Theorem postVerifyPayment_spec (now : Z) (body : VerifyBody.t) (db : DB) :
  match postVerifyPayment now body db with
  | (db', Success pid) =>
      VerifyBody.isValid body = true
      ∧ pid = length (payments db)
      ∧ payments db'
        = payments db
            ++ [Payment.mk (VerifyBody.saleId body) (VerifyBody.customerId body)
                           (VerifyBody.amount body) now m_razorpay e_completed]
      ∧ customers db' = customers db
      ∧ ∃ customerId, VerifyBody.customerId body = Some customerId
                      ∧ customers db !! customerId = None
  | (db', Failure _ e) =>
      is_overpayment_error e = false
      ∧ (VerifyBody.isValid body = false → db' = db)
  end.
Proof.
  unfold postVerifyPayment, no_transaction.
  destruct (VerifyBody.isValid body) eqn:Hvalid; cbn [negb]; [|done].
  unfold mbind at 1, M_bind at 1, savePayment.
  destruct (validate_payment _) eqn:Hvp; [|done].
  unfold mbind at 1, M_bind at 1, get_db, put_db.
  unfold mbind at 1, M_bind at 1, mret at 1, M_ret at 1.
  unfold mbind at 1, M_bind at 1.
  match goal with |- context [match ?step ?d with _ => _ end] =>
    assert (Hstep : ∃ o, step d = (o, d) ∧ ∀ e, o = Throw e → e = TypeError_undefined)
  end.
  { destruct (VerifyBody.saleId body) as [sid|]; [|by exists (Ok tt)].
    unfold mbind, M_bind. rewrite findSale_run. cbn [sales].
    destruct (sales db !! sid) as [sale|]; [|by exists (Ok tt)].
    eexists. split; [reflexivity|]. by intros e [= <-]. }
  destruct Hstep as (o & -> & Ho). destruct o as [[]|e].
  2:{ split; [|done]. by rewrite (Ho e eq_refl). }
  unfold mbind at 1, M_bind at 1.
  destruct (VerifyBody.customerId body) as [cid|] eqn:Hcid.
  2:{ unfold validate_payment in Hvp. simpl in Hvp.
      rewrite andb_false_r in Hvp. done. }
  unfold mbind at 1, M_bind at 1. rewrite findCustomer_run. cbn [customers].
  destruct (customers db !! cid) as [customer|] eqn:Hc.
  - unfold mbind at 1, M_bind at 1.
    destruct (saveCustomer cid _ _) as [[[]|e] db'] eqn:Hsave; [done|].
    split; [|done]. revert Hsave.
    unfold saveCustomer, customer_pre_save, mbind, M_bind, throw.
    destruct (validate_customer _); [|by intros [= <- _]].
    destruct (_ <? _); by intros [= <- _].
  - unfold mret, M_ret. cbn [customers payments]. repeat split; try done.
    by exists cid.
Qed.
